(** * Claude Skills Daemon: a shallow embedding of [claude-skills-daemon.py]

    The handler class [SkillsFileHandler] is embedded method by method.
    Calls into the operating system, the clock and the Google Docs client are
    answered by an explicit [world] of outcomes, the handler's fields are
    threaded as a record, and everything the handler does to the outside
    (log lines, sleeps, document edits, file moves) is recorded in a trace. *)

From Stdlib Require Import QArith Qminmax Qpower Lqa.
From Stdlib Require Import Floats.PrimFloat.
From Stdlib Require Import Ascii.
From stdpp Require Import gmap strings list.

Open Scope string_scope.
Open Scope list_scope.

(** ** Exceptions and results *)

(** The exception classes the daemon can meet.  [PermissionError] is a
    subclass of [OSError]; all of them are subclasses of [Exception]. *)
Inductive exn :=
| PermissionError (msg : string)
| OSError (msg : string)
| KeyError (key : string)
| IndexError (msg : string)
| UnicodeDecodeError (msg : string)
| AttributeError (msg : string)
| ServiceError (msg : string).

Definition is_PermissionError (e : exn) : bool :=
  match e with PermissionError _ => true | _ => false end.

Inductive result (A : Type) :=
| Ok (a : A)
| Raise (e : exn).
Arguments Ok {A} a.
Arguments Raise {A} e.

(** ** Library model: [fnmatch.fnmatch] on POSIX

    [fnmatch.fnmatch(name, pat)] first applies [os.path.normcase], which is
    the identity on POSIX (the daemon runs under launchd), and then matches
    the whole name against the pattern: [*] matches any run of characters,
    [?] one character, [[seq]] one character of [seq], [[!seq]] one
    character not in [seq]; a [[] that is never closed stands for itself.
    Strings are sequences of 8-bit characters. *)
Module Fnmatch.

Inductive tok :=
| Star
| AnyChar
| CharSet (stuff : string)
| Lit (c : ascii).

(** [j] runs from the current position to the first [']'], as the scanning
    [while] of [fnmatch.translate] does. *)
Fixpoint split_rbracket (s : string) : option (string * string) :=
  match s with
  | EmptyString => None
  | String c s' =>
      if Ascii.eqb c "]" then Some (EmptyString, s')
      else match split_rbracket s' with
           | Some (stuff, rest) => Some (String c stuff, rest)
           | None => None
           end
  end.

(** After a ['['] : skip one ['!'], then skip one [']'], then look for the
    closing [']'].  Gives the text between the brackets and what follows. *)
Definition close_bracket (s : string) : option (string * string) :=
  let '(p1, s1) := match s with
                   | String "!"%char s' => ("!", s')
                   | _ => ("", s)
                   end in
  let '(p2, s2) := match s1 with
                   | String "]"%char s' => ("]", s')
                   | _ => ("", s1)
                   end in
  match split_rbracket s2 with
  | Some (stuff, rest) => Some (p1 +:+ p2 +:+ stuff, rest)
  | None => None
  end.

Fixpoint translate_go (fuel : nat) (pat : string) : list tok :=
  match fuel with
  | O => []
  | S fuel' =>
      match pat with
      | EmptyString => []
      | String c rest =>
          if Ascii.eqb c "*" then Star :: translate_go fuel' rest
          else if Ascii.eqb c "?" then AnyChar :: translate_go fuel' rest
          else if Ascii.eqb c "[" then
            match close_bracket rest with
            | Some (stuff, rest') => CharSet stuff :: translate_go fuel' rest'
            | None => Lit c :: translate_go fuel' rest
            end
          else Lit c :: translate_go fuel' rest
      end
  end.

(** One step is taken per pattern character at most, so the length of the
    pattern is enough fuel. *)
Definition translate (pat : string) : list tok :=
  translate_go (String.length pat) pat.

Definition in_range (lo hi c : ascii) : bool :=
  (N.leb (N_of_ascii lo) (N_of_ascii c)) && (N.leb (N_of_ascii c) (N_of_ascii hi)).

(** Members of a bracket expression: [a-b] is a range, anything else
    stands for itself. *)
Fixpoint in_items (items : string) (c : ascii) : bool :=
  match items with
  | EmptyString => false
  | String lo (String "-"%char (String hi rest)) =>
      in_range lo hi c || in_items rest c
  | String a rest => Ascii.eqb a c || in_items rest c
  end.

Definition in_set (stuff : string) (c : ascii) : bool :=
  match stuff with
  | String "!"%char items => negb (in_items items c)
  | _ => in_items stuff c
  end.

Fixpoint matches (ts : list tok) : string -> bool :=
  match ts with
  | [] => fun s => match s with EmptyString => true | _ => false end
  | Star :: ts' =>
      fix star (s : string) : bool :=
        matches ts' s
        || match s with EmptyString => false | String _ s' => star s' end
  | AnyChar :: ts' =>
      fun s => match s with EmptyString => false | String _ s' => matches ts' s' end
  | CharSet stuff :: ts' =>
      fun s => match s with
               | EmptyString => false
               | String c s' => in_set stuff c && matches ts' s'
               end
  | Lit a :: ts' =>
      fun s => match s with
               | EmptyString => false
               | String c s' => Ascii.eqb a c && matches ts' s'
               end
  end.

Definition fnmatch (name pat : string) : bool := matches (translate pat) name.

End Fnmatch.

(** ** Library model: [posixpath] *)
Module Posixpath.

(** [s.split('/')] *)
Fixpoint split_slash (s : string) : list string :=
  match s with
  | EmptyString => [EmptyString]
  | String c s' =>
      let r := split_slash s' in
      if Ascii.eqb c "/" then EmptyString :: r
      else match r with
           | x :: xs => String c x :: xs
           | [] => [String c EmptyString]
           end
  end.

(** [p[p.rfind('/') + 1:]] *)
Definition basename (p : string) : string :=
  List.last (split_slash p) EmptyString.

Definition startswith_slash (p : string) : bool :=
  match p with String "/"%char _ => true | _ => false end.

Fixpoint endswith_slash (p : string) : bool :=
  match p with
  | EmptyString => false
  | String c EmptyString => Ascii.eqb c "/"
  | String _ p' => endswith_slash p'
  end.

(** [os.path.join(a, b)] with one tail component. *)
Definition join (a b : string) : string :=
  if startswith_slash b then b
  else if String.eqb a "" || endswith_slash a then a +:+ b
  else a +:+ "/" +:+ b.

(** The loop of [normpath] over the components; [new_comps] is kept with
    its last element first. *)
Fixpoint norm_comps (initial_slashes : nat) (comps new_comps : list string)
  : list string :=
  match comps with
  | [] => rev new_comps
  | comp :: comps' =>
      if String.eqb comp "" || String.eqb comp "." then
        norm_comps initial_slashes comps' new_comps
      else if negb (String.eqb comp "..")
              || (Nat.eqb initial_slashes 0 && match new_comps with [] => true | _ => false end)
              || match new_comps with top :: _ => String.eqb top ".." | [] => false end
      then norm_comps initial_slashes comps' (comp :: new_comps)
      else match new_comps with
           | _ :: popped => norm_comps initial_slashes comps' popped
           | [] => norm_comps initial_slashes comps' new_comps
           end
  end.

Definition count_initial_slashes (path : string) : nat :=
  match path with
  | String "/"%char (String "/"%char (String "/"%char _)) => 1
  | String "/"%char (String "/"%char _) => 2
  | String "/"%char _ => 1
  | _ => 0
  end.

Fixpoint slashes (n : nat) : string :=
  match n with O => "" | S n' => String "/" (slashes n') end.

Definition normpath (path : string) : string :=
  if String.eqb path "" then "."
  else
    let initial_slashes := count_initial_slashes path in
    let comps := norm_comps initial_slashes (split_slash path) [] in
    let path' := slashes initial_slashes +:+ String.concat "/" comps in
    if String.eqb path' "" then "." else path'.

End Posixpath.

(** ** The platform

    What the embedding takes from the interpreter and the process
    environment without modelling it: how a [float] prints inside an
    f-string, and [os.path.expanduser], which reads [HOME] and the password
    database. *)
Class Platform := {
  float_str : float -> string;
  expanduser : string -> string
}.

(** ** Configuration (the parsed JSON file) *)

(** One value of the [skills] mapping.  [pattern] and [skill_name] are read
    with [.get], [doc_id] with a subscript; [None] is an absent key. *)
Record skill_entry := {
  e_pattern : option string;
  e_doc_id : option string;
  e_skill_name : option string
}.

(** [skills] keeps the order of the JSON object, which is the order in which
    [.items()] yields it. *)
Record config := {
  watch_folder : option string;
  archive_folder : option string;
  service_account_file : option string;
  skills : option (list (string * skill_entry))
}.

(** The dict built by [_match_file_to_skill]. *)
Record skill_config := {
  name : string;
  doc_id : string;
  skill_name : string
}.

(** [self.config.get('skills', {}).items()] *)
Definition items_of (c : config) : list (string * skill_entry) :=
  default [] (skills c).

(** [pattern and fnmatch.fnmatch(filename, pattern)] *)
Definition pattern_matches (filename : string) (e : skill_entry) : bool :=
  match e_pattern e with
  | Some pattern => negb (String.eqb pattern "") && Fnmatch.fnmatch filename pattern
  | None => false
  end.

Fixpoint _matches_any_pattern_items (items : list (string * skill_entry))
  (filename : string) : bool :=
  match items with
  | [] => false
  | (_, entry) :: items' =>
      if pattern_matches filename entry then true
      else _matches_any_pattern_items items' filename
  end.

Definition _matches_any_pattern (cfg : config) (filename : string) : bool :=
  _matches_any_pattern_items (items_of cfg) filename.

Fixpoint _match_file_to_skill_items (items : list (string * skill_entry))
  (filename : string) : result (option skill_config) :=
  match items with
  | [] => Ok None
  | (key, entry) :: items' =>
      if pattern_matches filename entry then
        match e_doc_id entry with
        | Some d =>
            Ok (Some {| name := key;
                        doc_id := d;
                        skill_name := default key (e_skill_name entry) |})
        | None => Raise (KeyError "doc_id")
        end
      else _match_file_to_skill_items items' filename
  end.

Definition _match_file_to_skill (cfg : config) (filename : string)
  : result (option skill_config) :=
  _match_file_to_skill_items (items_of cfg) filename.

(** ** What the handler does to the outside *)

Inductive level := INFO | WARNING | ERROR.

(** One constructor per [logger] call of the class, carrying the values its
    f-string interpolates. *)
Inductive message :=
| MsgCreated (filename : string)
| MsgModified (filename : string)
| MsgFileReady (filename : string) (current_size : Z)
| MsgSizeError (retry_count : nat) (e : string)
| MsgNotReady (max_retries : nat) (filepath : string)
| MsgSkipping (filename : string)
| MsgNoMatch (filename : string)
| MsgMatched (skill filename : string)
| MsgReadFailed (filename : string)
| MsgChmodFailed (e : exn)
| MsgProcessed (filename : string)
| MsgProcessError (filename : string) (e : exn)
| MsgPermissionDenied (attempt max_retries : nat) (filepath : string)
| MsgReadError (e : exn)
| MsgServiceReady
| MsgServiceError (e : exn)
| MsgAppended (doc : string)
| MsgAppendError (e : exn)
| MsgStays (filename : string)
| MsgArchived (archive_path : string)
| MsgArchiveError (e : exn).

Inductive event :=
| Log (lv : level) (m : message)
| Sleep (seconds : Q)
| Chmod (path : string) (mode : N)
| InsertText (doc : string) (index : Z) (text : string)
| Makedirs (path : string)
| Rename (src dst : string).

Definition trace := list event.

(** The durations slept, in order. *)
Fixpoint sleeps (tr : trace) : list Q :=
  match tr with
  | [] => []
  | Sleep q :: tr' => q :: sleeps tr'
  | _ :: tr' => sleeps tr'
  end.

(** The texts inserted into documents, in order. *)
Fixpoint inserts (tr : trace) : list (string * Z * string) :=
  match tr with
  | [] => []
  | InsertText d i t :: tr' => (d, i, t) :: inserts tr'
  | _ :: tr' => inserts tr'
  end.

Fixpoint renames (tr : trace) : list (string * string) :=
  match tr with
  | [] => []
  | Rename a b :: tr' => (a, b) :: renames tr'
  | _ :: tr' => renames tr'
  end.

(** ** The world: what the environment answers during one event *)

(** [os.path.getsize]: a size, or an [OSError] with its text. *)
Inductive stat :=
| Size (n : Z)
| StatError (e : string).

Record datetime := {
  year : nat; month : nat; day : nat;
  hour : nat; minute : nat; second : nat
}.

(** The structural elements of a document body matter here only through
    their [endIndex]. *)
Record document := { body_content : list Z }.

Record world := {
  path_exists : bool;                   (* os.path.exists(filepath) *)
  getsize : nat -> stat;                (* the k-th os.path.getsize(filepath) *)
  getmtime : result float;              (* os.path.getmtime(filepath) *)
  open_read : nat -> result string;     (* the k-th open(...) and f.read() *)
  chmod : result unit;                  (* os.chmod(filepath, 0o644) *)
  from_service_account_file : result unit;
  build : result unit;                  (* googleapiclient.discovery.build *)
  documents_get : result document;      (* documents().get(...).execute() *)
  batchUpdate : result unit;            (* documents().batchUpdate(...).execute() *)
  now : datetime;                       (* datetime.now() *)
  makedirs : result unit;               (* os.makedirs(..., exist_ok=True) *)
  rename : result unit                  (* os.rename(filepath, archive_path) *)
}.

(** ** The handler object *)

Record handler := {
  cfg : config;
  service_account_creds : bool;         (* False: still None *)
  docs_service : bool;                  (* False: still None *)
  last_processed : gset string
}.

(** [__init__] *)
Definition init (c : config) : handler :=
  {| cfg := c; service_account_creds := false; docs_service := false;
     last_processed := ∅ |}.

(** ** Readiness detection *)

(** The [while retry_count < max_retries] loop; [fuel] is
    [max_retries - retry_count], the number of iterations still allowed.
    Durations are exact rationals: [0.1] is [1 # 10], [1.5] is [3 # 2]. *)
Fixpoint wait_loop (w : world) (filepath : string) (fuel : nat)
  (last_size : Z) (retry_count : nat) (wait_time : Q) : trace * bool :=
  match fuel with
  | O => ([], false)
  | S fuel' =>
      match getsize w retry_count with
      | Size current_size =>
          if (current_size =? last_size)%Z && (current_size >? 0)%Z then
            ([Log INFO (MsgFileReady (Posixpath.basename filepath) current_size)],
             true)
          else
            let '(tr, r) :=
              wait_loop w filepath fuel' current_size (S retry_count)
                (Qmin (wait_time * (3 # 2)) 2) in
            (Sleep wait_time :: tr, r)
      | StatError e =>
          let '(tr, r) :=
            wait_loop w filepath fuel' last_size (S retry_count) wait_time in
          (Log WARNING (MsgSizeError retry_count e) :: Sleep wait_time :: tr, r)
      end
  end.

Definition _wait_for_file_ready (w : world) (filepath : string)
  (max_retries : nat) : trace * bool :=
  if negb (path_exists w) then ([], false)
  else
    let '(tr, r) := wait_loop w filepath max_retries (-1)%Z 0 (1 # 10) in
    if r then (tr, true)
    else (tr ++ [Log WARNING (MsgNotReady max_retries filepath)], false).

Definition default_wait_retries : nat := 10.

(** *** Notions used to state readiness *)

Definition size_of (s : stat) : option Z :=
  match s with Size n => Some n | StatError _ => None end.

(** The sizes seen by the attempts [start], ..., [start + n - 1], in order;
    an attempt whose [getsize] raised saw none. *)
Definition sizes_seen (w : world) (start n : nat) : list Z :=
  omap (fun k => size_of (getsize w k)) (seq start n).

(** The size observations within a budget of [max_retries] attempts. *)
Definition size_observations (w : world) (max_retries : nat) : list Z :=
  sizes_seen w 0 max_retries.

(** Two consecutive observations are equal and greater than zero. *)
Definition stable_pair (obs : list Z) : Prop :=
  exists i s, obs !! i = Some s /\ obs !! S i = Some s /\ (0 < s)%Z.

(** The interval the specification gives for the retry after [m] growth
    steps: [min(0.1 * 1.5^m, 2.0)]. *)
Definition backoff (m : nat) : Q :=
  Qmin ((1 # 10) * (3 # 2) ^ Z.of_nat m) 2.

(** ** Reading with retry *)

(** [for attempt in range(max_retries)]; [fuel] is [max_retries - attempt].
    [None] is the [return None] after the loop. *)
Fixpoint read_loop (w : world) (filepath : string) (max_retries fuel attempt : nat)
  : trace * result (option string) :=
  match fuel with
  | O => ([], Ok None)
  | S fuel' =>
      match open_read w attempt with
      | Ok content => ([], Ok (Some content))
      | Raise e =>
          if is_PermissionError e then
            let warn := Log WARNING (MsgPermissionDenied (attempt + 1) max_retries filepath) in
            if Nat.ltb attempt (max_retries - 1) then
              let '(tr, r) := read_loop w filepath max_retries fuel' (S attempt) in
              (warn :: Sleep ((1 # 2) * inject_Z (Z.of_nat (attempt + 1))) :: tr, r)
            else ([warn], Raise e)
          else ([Log ERROR (MsgReadError e)], Raise e)
      end
  end.

Definition _read_file_with_retry (w : world) (filepath : string)
  (max_retries : nat) : trace * result (option string) :=
  read_loop w filepath max_retries max_retries 0.

Definition default_read_retries : nat := 5.

(** *** Notions used to state the retry behaviour *)

(** The [k]-th read met a [PermissionError]. *)
Definition denied (w : world) (k : nat) : Prop :=
  exists e, open_read w k = Raise e /\ is_PermissionError e = true.

(** What a read that ends the loop hands to the caller. *)
Definition read_outcome (r : result string) : result (option string) :=
  match r with
  | Ok content => Ok (Some content)
  | Raise e => Raise e
  end.

(** [0.5 * (attempt + 1)] for the attempts [start], ..., [start + k - 1]. *)
Definition retry_delays (start k : nat) : list Q :=
  map (fun attempt => ((1 # 2) * inject_Z (Z.of_nat (attempt + 1)))%Q) (seq start k).

(** ** Appending to the document *)

Definition nl : string := String "010"%char EmptyString.

(** [s * n] on strings *)
Fixpoint str_mul (s : string) (n : nat) : string :=
  match n with O => "" | S n' => s +:+ str_mul s n' end.

Definition digit (n : nat) : ascii := ascii_of_nat (48 + n mod 10).

Definition two_digits (n : nat) : string :=
  String (digit (n / 10)) (String (digit n) EmptyString).

Definition four_digits (n : nat) : string :=
  String (digit (n / 1000)) (String (digit (n / 100)) (two_digits n)).

(** [strftime('%Y-%m-%d %H:%M:%S')], every field zero-padded to its width. *)
Definition strftime (t : datetime) : string :=
  four_digits (year t) +:+ "-" +:+ two_digits (month t) +:+ "-" +:+ two_digits (day t)
  +:+ " " +:+ two_digits (hour t) +:+ ":" +:+ two_digits (minute t)
  +:+ ":" +:+ two_digits (second t).

Definition separator : string := nl +:+ nl +:+ str_mul "=" 80 +:+ nl.
Definition header (skill_name timestamp : string) : string :=
  "Added by " +:+ skill_name +:+ " daemon at " +:+ timestamp +:+ nl.
Definition footer : string := nl +:+ str_mul "=" 80 +:+ nl +:+ nl.

Definition full_content (skill_name timestamp content : string) : string :=
  separator +:+ header skill_name timestamp +:+ separator +:+ content +:+ footer.

(** [doc.get('body').get('content')[-1].get('endIndex') - 1] *)
Definition end_index (doc : document) : result Z :=
  match List.last (map Some (body_content doc)) None with
  | Some endIndex => Ok (endIndex - 1)%Z
  | None => Raise (IndexError "list index out of range")
  end.

(** The body of the [try] of [_append_to_doc]. *)
Definition _append_to_doc_try (self : handler) (w : world)
  (doc_id content skill_name : string) : trace * result unit :=
  if negb (docs_service self) then
    ([], Raise (AttributeError "'NoneType' object has no attribute 'documents'"))
  else
    match documents_get w with
    | Raise e => ([], Raise e)
    | Ok doc =>
        match end_index doc with
        | Raise e => ([], Raise e)
        | Ok index =>
            let timestamp := strftime (now w) in
            let text := full_content skill_name timestamp content in
            match batchUpdate w with
            | Raise e => ([], Raise e)
            | Ok _ => ([InsertText doc_id index text; Log INFO (MsgAppended doc_id)], Ok ())
            end
        end
    end.

Definition _append_to_doc (self : handler) (w : world)
  (doc_id content skill_name : string) : trace * result unit :=
  match _append_to_doc_try self w doc_id content skill_name with
  | (tr, Ok _) => (tr, Ok ())
  | (tr, Raise e) => (tr ++ [Log ERROR (MsgAppendError e)], Raise e)
  end.

(** ** Initialising the document service *)

Definition _init_google_service (self : handler) (w : world)
  : handler * trace * result unit :=
  match from_service_account_file w with
  | Raise e => (self, [Log ERROR (MsgServiceError e)], Raise e)
  | Ok _ =>
      let self1 := {| cfg := cfg self; service_account_creds := true;
                      docs_service := docs_service self;
                      last_processed := last_processed self |} in
      match build w with
      | Raise e => (self1, [Log ERROR (MsgServiceError e)], Raise e)
      | Ok _ =>
          ({| cfg := cfg self; service_account_creds := true;
              docs_service := true;
              last_processed := last_processed self |},
           [Log INFO MsgServiceReady], Ok ())
      end
  end.

(** ** Archiving *)

(** The body of the [try] of [_archive_file]. *)
Definition _archive_file_try `{Platform} (self : handler) (w : world)
  (filepath : string) : trace * result unit :=
  let archive_dir := expanduser (default "~/Downloads" (archive_folder (cfg self))) in
  match makedirs w with
  | Raise e => ([], Raise e)
  | Ok _ =>
      let filename := Posixpath.basename filepath in
      let archive_path := Posixpath.join archive_dir filename in
      if String.eqb (Posixpath.normpath archive_path) (Posixpath.normpath filepath) then
        ([Makedirs archive_dir; Log INFO (MsgStays filename)], Ok ())
      else
        match rename w with
        | Raise e => ([Makedirs archive_dir], Raise e)
        | Ok _ =>
            ([Makedirs archive_dir; Rename filepath archive_path;
              Log INFO (MsgArchived archive_path)], Ok ())
        end
  end.

Definition _archive_file `{Platform} (self : handler) (w : world)
  (filepath : string) : trace * result unit :=
  match _archive_file_try self w filepath with
  | (tr, Ok _) => (tr, Ok ())
  | (tr, Raise e) => (tr ++ [Log ERROR (MsgArchiveError e)], Ok ())
  end.

(** ** The per-file pipeline *)

(** [f"{filepath}:{os.path.getmtime(filepath)}"] *)
Definition file_id `{Platform} (filepath : string) (mtime : float) : string :=
  filepath +:+ ":" +:+ float_str mtime.

Definition mark_processed (self : handler) (id : string) : handler :=
  {| cfg := cfg self; service_account_creds := service_account_creds self;
     docs_service := docs_service self;
     last_processed := {[ id ]} ∪ last_processed self |}.

(** [not content] *)
Definition falsy (content : option string) : bool :=
  match content with
  | None => true
  | Some c => String.eqb c ""
  end.

(** The body of the [try] of [process_file]. *)
Definition process_file_try `{Platform} (self : handler) (w : world)
  (filepath filename id : string) : handler * trace * result unit :=
  match _match_file_to_skill (cfg self) filename with
  | Raise e => (self, [], Raise e)
  | Ok None => (self, [Log INFO (MsgNoMatch filename)], Ok ())
  | Ok (Some skill) =>
      let tr1 := [Log INFO (MsgMatched (name skill) filename)] in
      match _read_file_with_retry w filepath default_read_retries with
      | (tr2, Raise e) => (self, tr1 ++ tr2, Raise e)
      | (tr2, Ok content) =>
          if falsy content then
            (self, tr1 ++ tr2 ++ [Log ERROR (MsgReadFailed filename)], Ok ())
          else
            let tr3 := match chmod w with
                       | Ok _ => [Chmod filepath 420]
                       | Raise e => [Log WARNING (MsgChmodFailed e)]
                       end in
            let '(self1, tr4, started) :=
              if docs_service self then (self, [], Ok ())
              else _init_google_service self w in
            match started with
            | Raise e => (self1, tr1 ++ tr2 ++ tr3 ++ tr4, Raise e)
            | Ok _ =>
                match _append_to_doc self1 w (doc_id skill) (default "" content)
                        (name skill) with
                | (tr5, Raise e) => (self1, tr1 ++ tr2 ++ tr3 ++ tr4 ++ tr5, Raise e)
                | (tr5, Ok _) =>
                    let self2 := mark_processed self1 id in
                    match _archive_file self2 w filepath with
                    | (tr6, Raise e) =>
                        (self2, tr1 ++ tr2 ++ tr3 ++ tr4 ++ tr5 ++ tr6, Raise e)
                    | (tr6, Ok _) =>
                        (self2,
                         tr1 ++ tr2 ++ tr3 ++ tr4 ++ tr5 ++ tr6
                           ++ [Log INFO (MsgProcessed filename)],
                         Ok ())
                    end
                end
            end
      end
  end.

(** [Raise] is an exception that leaves [process_file]. *)
Definition process_file `{Platform} (self : handler) (w : world)
  (filepath : string) : handler * trace * result unit :=
  let filename := Posixpath.basename filepath in
  match getmtime w with
  | Raise e => (self, [], Raise e)
  | Ok mtime =>
      let id := file_id filepath mtime in
      if bool_decide (id ∈ last_processed self) then
        (self, [Log INFO (MsgSkipping filename)], Ok ())
      else
        match process_file_try self w filepath filename id with
        | (self', tr, Ok _) => (self', tr, Ok ())
        | (self', tr, Raise e) =>
            (self', tr ++ [Log ERROR (MsgProcessError filename e)], Ok ())
        end
  end.

(** *** Successive calls on one handler object *)

(** The outcomes of calling [process_file] on the same handler for each
    (world, path) of [calls] in turn. *)
Fixpoint run `{Platform} (self : handler) (calls : list (world * string))
  : list (handler * trace * result unit) :=
  match calls with
  | [] => []
  | (w, filepath) :: calls' =>
      let out := process_file self w filepath in
      out :: run out.1.1 calls'
  end.

(** The handler as the [j]-th call finds it. *)
Fixpoint handler_before `{Platform} (self : handler)
  (calls : list (world * string)) (j : nat) : handler :=
  match j, calls with
  | S j', (w, filepath) :: calls' =>
      handler_before (process_file self w filepath).1.1 calls' j'
  | _, _ => self
  end.

(** ** The dispatcher *)

Record fs_event := { is_directory : bool; src_path : string }.

Definition on_created `{Platform} (self : handler) (w : world) (ev : fs_event)
  : handler * trace * result unit :=
  if is_directory ev then (self, [], Ok ())
  else
    let filename := Posixpath.basename (src_path ev) in
    let tr0 := [Log INFO (MsgCreated filename)] in
    match _wait_for_file_ready w (src_path ev) default_wait_retries with
    | (tr1, true) =>
        let '(self', tr2, r) := process_file self w (src_path ev) in
        (self', tr0 ++ tr1 ++ tr2, r)
    | (tr1, false) => (self, tr0 ++ tr1, Ok ())
    end.

Definition on_modified `{Platform} (self : handler) (w : world) (ev : fs_event)
  : handler * trace * result unit :=
  if is_directory ev then (self, [], Ok ())
  else
    let filename := Posixpath.basename (src_path ev) in
    if _matches_any_pattern (cfg self) filename then
      let tr0 := [Log INFO (MsgModified filename)] in
      match _wait_for_file_ready w (src_path ev) default_wait_retries with
      | (tr1, true) =>
          let '(self', tr2, r) := process_file self w (src_path ev) in
          (self', tr0 ++ tr1 ++ tr2, r)
      | (tr1, false) => (self, tr0 ++ tr1, Ok ())
      end
    else (self, [], Ok ()).

(** ** Example data *)

(** A platform for the examples: the home directory is [/Users/me], and the
    floats the examples use print as Python prints them. *)
Definition demo_platform : Platform := {|
  float_str := fun m =>
    if PrimFloat.eqb m 1718000000%float then "1718000000.0"
    else if PrimFloat.eqb m 1718000360.5%float then "1718000360.5"
    else "0.0";
  expanduser := fun p =>
    match p with
    | String "~"%char rest => "/Users/me" +:+ rest
    | _ => p
    end
|}.

Definition weekly_entry : skill_entry :=
  {| e_pattern := Some "report*.txt"; e_doc_id := Some "D1";
     e_skill_name := Some "Weekly" |}.

Definition weekly_cfg : config :=
  {| watch_folder := Some "/watch"; archive_folder := Some "/archive";
     service_account_file := None;
     skills := Some [("weekly", weekly_entry)] |}.

Definition summary_cfg : config :=
  {| watch_folder := Some "/watch"; archive_folder := Some "/archive";
     service_account_file := None;
     skills := Some [("summary", {| e_pattern := Some "summary*.txt";
                                    e_doc_id := Some "D2";
                                    e_skill_name := None |})] |}.

(** An entry whose [doc_id] key is absent. *)
Definition broken_cfg : config :=
  {| watch_folder := Some "/watch"; archive_folder := Some "/archive";
     service_account_file := None;
     skills := Some [("weekly", {| e_pattern := Some "report*.txt";
                                   e_doc_id := None;
                                   e_skill_name := None |})] |}.

Definition noon : datetime :=
  {| year := 2024; month := 6; day := 10; hour := 12; minute := 0; second := 7 |}.

(** Everything succeeds: the file holds [Hello] and its size is 5 from the
    first look on. *)
Definition calm_world : world :=
  {| path_exists := true;
     getsize := fun _ => Size 5;
     getmtime := Ok 1718000000%float;
     open_read := fun _ => Ok "Hello";
     chmod := Ok ();
     from_service_account_file := Ok ();
     build := Ok ();
     documents_get := Ok {| body_content := [1; 42]%Z |};
     batchUpdate := Ok ();
     now := noon;
     makedirs := Ok ();
     rename := Ok () |}.

(** The first size read fails, after that the size is 5. *)
Definition flaky_world : world :=
  {| path_exists := true;
     getsize := fun k => match k with O => StatError "EACCES" | _ => Size 5 end;
     getmtime := Ok 1718000000%float;
     open_read := fun _ => Ok "Hello";
     chmod := Ok ();
     from_service_account_file := Ok ();
     build := Ok ();
     documents_get := Ok {| body_content := [1; 42]%Z |};
     batchUpdate := Ok ();
     now := noon;
     makedirs := Ok ();
     rename := Ok () |}.

(** The file is locked for the first two reads. *)
Definition locked_world : world :=
  {| path_exists := true;
     getsize := fun _ => Size 5;
     getmtime := Ok 1718000000%float;
     open_read := fun k => match k with
                           | 0 | 1 => Raise (PermissionError "Permission denied")
                           | _ => Ok "Hello"
                           end;
     chmod := Ok ();
     from_service_account_file := Ok ();
     build := Ok ();
     documents_get := Ok {| body_content := [1; 42]%Z |};
     batchUpdate := Ok ();
     now := noon;
     makedirs := Ok ();
     rename := Ok () |}.

(** The file is gone when its modification time is asked for. *)
Definition vanished_world : world :=
  {| path_exists := true;
     getsize := fun _ => Size 5;
     getmtime := Raise (OSError "[Errno 2] No such file or directory");
     open_read := fun _ => Raise (OSError "[Errno 2] No such file or directory");
     chmod := Ok ();
     from_service_account_file := Ok ();
     build := Ok ();
     documents_get := Ok {| body_content := [1; 42]%Z |};
     batchUpdate := Ok ();
     now := noon;
     makedirs := Ok ();
     rename := Ok () |}.

(** The archive folder is the watch folder, and a move would fail. *)
Definition stay_cfg : config :=
  {| watch_folder := Some "/watch"; archive_folder := Some "/watch/";
     service_account_file := None;
     skills := Some [("weekly", weekly_entry)] |}.

Definition no_move_world : world :=
  {| path_exists := true;
     getsize := fun _ => Size 5;
     getmtime := Ok 1718000000%float;
     open_read := fun _ => Ok "Hello";
     chmod := Ok ();
     from_service_account_file := Ok ();
     build := Ok ();
     documents_get := Ok {| body_content := [1; 42]%Z |};
     batchUpdate := Ok ();
     now := noon;
     makedirs := Ok ();
     rename := Raise (OSError "[Errno 13] Permission denied") |}.

(** The scenario of the specification: [notes-*.md] goes to [D1]. *)
Definition notes_cfg : config :=
  {| watch_folder := Some "/watch"; archive_folder := Some "/archive";
     service_account_file := None;
     skills := Some [("Notes", {| e_pattern := Some "notes-*.md";
                                  e_doc_id := Some "D1";
                                  e_skill_name := None |})] |}.

(** ** Measures on traces *)

(** The total of a list of durations. *)
Definition Qsum (l : list Q) : Q := fold_right Qplus 0%Q l.

(** The events that touch a file or a document. *)
Definition is_outward (ev : event) : bool :=
  match ev with
  | Chmod _ _ | InsertText _ _ _ | Makedirs _ | Rename _ _ => true
  | _ => false
  end.

Definition outward (tr : trace) : trace := List.filter is_outward tr.

Definition is_service_ready (ev : event) : bool :=
  match ev with
  | Log INFO MsgServiceReady => true
  | _ => false
  end.

(** How many times the document service was started with success. *)
Definition service_starts (tr : trace) : nat :=
  length (List.filter is_service_ready tr).

(** The archive folder after [expanduser]. *)
Definition archive_dir_of (P : Platform) (self : handler) : string :=
  expanduser (default "~/Downloads" (archive_folder (cfg self))).

(** The same world with another answer of [os.chmod]. *)
Definition with_chmod (r : result unit) (w : world) : world :=
  {| path_exists := path_exists w;
     getsize := getsize w;
     getmtime := getmtime w;
     open_read := open_read w;
     chmod := r;
     from_service_account_file := from_service_account_file w;
     build := build w;
     documents_get := documents_get w;
     batchUpdate := batchUpdate w;
     now := now w;
     makedirs := makedirs w;
     rename := rename w |}.

(** What the [chmod] step leaves in the trace. *)
Definition is_chmod_step (ev : event) : bool :=
  match ev with
  | Chmod _ _ | Log WARNING (MsgChmodFailed _) => true
  | _ => false
  end.

Definition without_chmod (tr : trace) : trace :=
  List.filter (fun ev => negb (is_chmod_step ev)) tr.

(** The file reads as the empty string. *)
Definition blank_world : world :=
  {| path_exists := true;
     getsize := fun _ => Size 5;
     getmtime := Ok 1718000000%float;
     open_read := fun _ => Ok "";
     chmod := Ok ();
     from_service_account_file := Ok ();
     build := Ok ();
     documents_get := Ok {| body_content := [1; 42]%Z |};
     batchUpdate := Ok ();
     now := noon;
     makedirs := Ok ();
     rename := Ok () |}.

(** ** The handler over its lifetime *)

(** [reaches P c self tr]: starting from [SkillsFileHandler(c)], some
    sequence of creation and modification events, each answered by some
    world, leaves the handler as [self] after the trace [tr]. *)
Inductive reaches (P : Platform) (c : config) : handler -> trace -> Prop :=
| reaches_init : reaches P c (init c) []
| reaches_created self tr w ev :
    reaches P c self tr ->
    reaches P c (on_created self w ev).1.1 (tr ++ (on_created self w ev).1.2)
| reaches_modified self tr w ev :
    reaches P c self tr ->
    reaches P c (on_modified self w ev).1.1 (tr ++ (on_modified self w ev).1.2).

(** 1 when the document service is running, 0 when it is still [None]. *)
Definition started (self : handler) : nat :=
  if docs_service self then 1 else 0.

(** What every step of the handler's life preserves or adds up. *)
Definition step_facts (self : handler) (out : handler * trace * result unit)
  : Prop :=
  cfg out.1.1 = cfg self /\
  service_starts out.1.2 + started self = started out.1.1 /\
  (inserts out.1.2 <> [] -> docs_service out.1.1 = true) /\
  ((docs_service self = true -> service_account_creds self = true) ->
   docs_service out.1.1 = true -> service_account_creds out.1.1 = true) /\
  size (last_processed out.1.1)
  = size (last_processed self) + length (inserts out.1.2).

(** No ['/'] occurs in the string. *)
Fixpoint no_slash (s : string) : bool :=
  match s with
  | EmptyString => true
  | String c s' => negb (Ascii.eqb c "/") && no_slash s'
  end.

(** No [':'] occurs in the string. *)
Fixpoint colon_free (s : string) : bool :=
  match s with
  | EmptyString => true
  | String c s' => negb (Ascii.eqb c ":") && colon_free s'
  end.

(** The entry has a pattern that passes the truth test of the matcher. *)
Definition usable (e : skill_entry) : bool :=
  match e_pattern e with
  | Some pattern => negb (String.eqb pattern "")
  | None => false
  end.

(** The configuration without the entries that have no usable pattern. *)
Definition prune (c : config) : config :=
  {| watch_folder := watch_folder c;
     archive_folder := archive_folder c;
     service_account_file := service_account_file c;
     skills := Some (List.filter (fun x => usable x.2) (items_of c)) |}.

(** A skill whose [pattern] key is absent, before the weekly one. *)
Definition padded_cfg : config :=
  {| watch_folder := Some "/watch"; archive_folder := Some "/archive";
     service_account_file := None;
     skills := Some [("draft", {| e_pattern := None; e_doc_id := None;
                                  e_skill_name := None |});
                     ("weekly", weekly_entry)] |}.

(** The document comes back with an empty body. *)
Definition hollow_world : world :=
  {| path_exists := true;
     getsize := fun _ => Size 5;
     getmtime := Ok 1718000000%float;
     open_read := fun _ => Ok "Hello";
     chmod := Ok ();
     from_service_account_file := Ok ();
     build := Ok ();
     documents_get := Ok {| body_content := [] |};
     batchUpdate := Ok ();
     now := noon;
     makedirs := Ok ();
     rename := Ok () |}.

(** A handler whose service is running. *)
Definition serving (c : config) : handler :=
  {| cfg := c; service_account_creds := true; docs_service := true;
     last_processed := ∅ |}.

(** ** Start-up: [load_config] and [main] *)

(** What can go wrong before the daemon is running. *)
Inductive fatal :=
| FileNotFoundError (msg : string)      (* raised by [load_config] itself *)
| LoadError (msg : string)              (* [open] or [json.load] raised *)
| TypeError (msg : string)              (* [expanduser(None)] *)
| StartError (e : exn).                 (* [os.makedirs] or the observer raised *)

Inductive outcome :=
| Returned
| Raised (e : fatal).

Inductive main_message :=
| MsgRule                               (* 60 equals signs *)
| MsgStarting
| MsgConfigNotFound (path : string)
| MsgConfigLoaded
| MsgWatching (folder : string)
| MsgRunning
| MsgStopping
| MsgStopped
| MsgFatal (e : fatal).

Inductive main_event :=
| MainLog (lv : level) (m : main_message)
| MainMakedirs (path : string)
| ObserverStart (folder : string)       (* [schedule(...)] and [start()] *)
| ObserverStop
| ObserverJoin
| MainSleep (seconds : Q).

(** What the environment answers to [main]. *)
Record startup := {
  config_exists : bool;                 (* os.path.exists(CONFIG_PATH) *)
  json_load : fatal + config;           (* open(CONFIG_PATH) and json.load *)
  watch_makedirs : result unit;         (* os.makedirs(watch_folder, ...) *)
  observer_start : result unit;         (* Observer(), schedule, start *)
  heartbeats : nat                      (* sleeps finished before Ctrl-C *)
}.

(** [CONFIG_PATH] *)
Definition CONFIG_PATH `{Platform} : string :=
  expanduser "~/.claude-skills-config.json".

Definition load_config `{Platform} (st : startup)
  : list main_event * (fatal + config) :=
  if negb (config_exists st) then
    ([MainLog ERROR (MsgConfigNotFound CONFIG_PATH)],
     inl (FileNotFoundError ("Please create " +:+ CONFIG_PATH)))
  else
    match json_load st with
    | inl e => ([], inl e)
    | inr c => ([MainLog INFO MsgConfigLoaded], inr c)
    end.

(** The [while True: time.sleep(1)] loop until [KeyboardInterrupt]. *)
Fixpoint idle (n : nat) : list main_event :=
  match n with
  | O => []
  | S n' => MainSleep 1 :: idle n'
  end.

(** The body of the outer [try] of [main]; the handler it builds is returned
    beside the trace. *)
Definition main_try `{Platform} (st : startup)
  : list main_event * (fatal + handler) :=
  match load_config st with
  | (tr0, inl e) => (tr0, inl e)
  | (tr0, inr c) =>
      match watch_folder c with
      | None =>
          (tr0, inl (TypeError
                       "expected str, bytes or os.PathLike object, not NoneType"))
      | Some folder =>
          let dir := expanduser folder in
          match watch_makedirs st with
          | Raise e => (tr0, inl (StartError e))
          | Ok _ =>
              let tr1 := tr0 ++ [MainMakedirs dir; MainLog INFO (MsgWatching dir)] in
              match observer_start st with
              | Raise e => (tr1, inl (StartError e))
              | Ok _ =>
                  (tr1 ++ [ObserverStart dir; MainLog INFO MsgRunning]
                       ++ idle (heartbeats st)
                       ++ [MainLog INFO MsgStopping; ObserverStop; ObserverJoin;
                           MainLog INFO MsgStopped],
                   inr (init c))
              end
          end
      end
  end.

Definition banner : list main_event :=
  [MainLog INFO MsgRule; MainLog INFO MsgStarting; MainLog INFO MsgRule].

Definition main `{Platform} (st : startup) : list main_event * outcome :=
  match main_try st with
  | (tr, inr _) => (banner ++ tr, Returned)
  | (tr, inl e) => (banner ++ tr ++ [MainLog ERROR (MsgFatal e)], Raised e)
  end.



(** A start that goes well and is interrupted after three seconds. *)
Definition good_start : startup :=
  {| config_exists := true;
     json_load := inr weekly_cfg;
     watch_makedirs := Ok ();
     observer_start := Ok ();
     heartbeats := 3 |}.

(** The configuration file is not there. *)
Definition no_config_start : startup :=
  {| config_exists := false;
     json_load := inl (LoadError "[Errno 2] No such file or directory");
     watch_makedirs := Ok ();
     observer_start := Ok ();
     heartbeats := 0 |}.

(** * Theorems *)

Example fnmatch_t1 : Fnmatch.fnmatch "report.txt" "report*.txt" = true.
Proof. reflexivity. Qed.
Example fnmatch_t2 : Fnmatch.fnmatch "report.txt" "summary*.txt" = false.
Proof. reflexivity. Qed.
Example fnmatch_t3 : Fnmatch.fnmatch "a]c" "a[]]c" = true.
Proof. reflexivity. Qed.
Example fnmatch_t4 : Fnmatch.fnmatch "a[c" "a[c" = true.
Proof. reflexivity. Qed.
Example fnmatch_t5 : Fnmatch.fnmatch "notes-2024.md" "notes-[0-9]*.m?" = true.
Proof. reflexivity. Qed.
Example fnmatch_t6 : Fnmatch.fnmatch "ab" "a[!b]" = false.
Proof. reflexivity. Qed.

(** ** Strings *)

Lemma append_nil_l (s : string) : "" +:+ s = s.
Proof. reflexivity. Qed.

Lemma append_cons (c : ascii) (s t : string) :
  String c s +:+ t = String c (s +:+ t).
Proof. reflexivity. Qed.

(** ** The glob model *)

Lemma matches_star_unfold ts s :
  Fnmatch.matches (Fnmatch.Star :: ts) s =
  Fnmatch.matches ts s
  || match s with
     | EmptyString => false
     | String _ s' => Fnmatch.matches (Fnmatch.Star :: ts) s'
     end.
Proof. destruct s; reflexivity. Qed.

Lemma split_rbracket_shorter s stuff rest :
  Fnmatch.split_rbracket s = Some (stuff, rest) ->
  String.length rest < String.length s.
Proof.
  revert stuff. induction s as [|c s IH]; intros stuff; simpl; [discriminate|].
  destruct (Ascii.eqb c "]").
  - intros [= _ ->]. lia.
  - destruct (Fnmatch.split_rbracket s) as [[stuff' rest']|]; [|discriminate].
    intros [= _ ->]. specialize (IH stuff' eq_refl). lia.
Qed.

Lemma close_bracket_shorter s stuff rest :
  Fnmatch.close_bracket s = Some (stuff, rest) ->
  String.length rest < String.length s.
Proof.
  unfold Fnmatch.close_bracket.
  set (a := match s with
            | String "!"%char s' => ("!", s')
            | _ => ("", s)
            end).
  assert (Ha : String.length a.2 <= String.length s).
  { subst a. destruct s as [|c s']; [simpl; lia|].
    destruct (Ascii.eqb_spec c "!"%char) as [->|Hne]; [simpl; lia|].
    destruct c as [[] [] [] [] [] [] [] []]; simpl; try lia; done. }
  destruct a as [p1 s1]. simpl in Ha.
  set (b := match s1 with
            | String "]"%char s' => ("]", s')
            | _ => ("", s1)
            end).
  assert (Hb : String.length b.2 <= String.length s1).
  { subst b. destruct s1 as [|c s']; [simpl; lia|].
    destruct (Ascii.eqb_spec c "]"%char) as [->|Hne]; [simpl; lia|].
    destruct c as [[] [] [] [] [] [] [] []]; simpl; try lia; done. }
  destruct b as [p2 s2]. simpl in Hb.
  destruct (Fnmatch.split_rbracket s2) as [[stuff' rest']|] eqn:Hs; [|discriminate].
  intros [= _ ->]. apply split_rbracket_shorter in Hs. lia.
Qed.

(** The translation never runs out of fuel: any fuel from the length of the
    pattern on gives the same tokens. *)
Lemma translate_go_enough f1 :
  forall f2 pat,
    String.length pat <= f1 -> String.length pat <= f2 ->
    Fnmatch.translate_go f1 pat = Fnmatch.translate_go f2 pat.
Proof.
  induction f1 as [|f1 IH]; intros f2 pat H1 H2.
  - destruct pat; [|simpl in H1; lia]. destruct f2; reflexivity.
  - destruct pat as [|c rest]; [destruct f2; reflexivity|].
    destruct f2 as [|f2]; [simpl in H2; lia|]. simpl in *.
    destruct (Ascii.eqb c "*"); [f_equal; apply IH; lia|].
    destruct (Ascii.eqb c "?"); [f_equal; apply IH; lia|].
    destruct (Ascii.eqb c "[").
    + destruct (Fnmatch.close_bracket rest) as [[stuff rest']|] eqn:Hc.
      * apply close_bracket_shorter in Hc. f_equal. apply IH; lia.
      * f_equal. apply IH; lia.
    + f_equal. apply IH; lia.
Qed.


(** [*] stands for any run of characters, the empty one included. *)
Lemma matches_star ts s :
  Fnmatch.matches (Fnmatch.Star :: ts) s = true <->
  exists pre suf, s = pre +:+ suf /\ Fnmatch.matches ts suf = true.
Proof.
  induction s as [|c s IH]; rewrite matches_star_unfold.
  - rewrite orb_false_r. split.
    + intros Hm. exists "", "". auto.
    + intros (pre & suf & Heq & Hm).
      destruct pre; rewrite ?append_nil_l, ?append_cons in Heq; [|discriminate].
      subst suf. exact Hm.
  - rewrite orb_true_iff, IH. split.
    + intros [Hm | (pre & suf & -> & Hm)].
      * exists "", (String c s). auto.
      * exists (String c pre), suf. auto.
    + intros (pre & suf & Heq & Hm).
      destruct pre as [|c' pre]; rewrite ?append_nil_l, ?append_cons in Heq.
      * subst suf. auto.
      * injection Heq as -> ->. right. eauto.
Qed.

(** [?] stands for exactly one character. *)
Lemma matches_anychar ts s :
  Fnmatch.matches (Fnmatch.AnyChar :: ts) s = true <->
  exists c s', s = String c s' /\ Fnmatch.matches ts s' = true.
Proof.
  destruct s as [|c s]; simpl.
  - split; [discriminate | intros (? & ? & ? & _); discriminate].
  - split; [eauto | intros (? & ? & [= -> ->] & ?); done].
Qed.

(** Any other character stands for itself. *)
Lemma matches_lit a ts s :
  Fnmatch.matches (Fnmatch.Lit a :: ts) s = true <->
  exists s', s = String a s' /\ Fnmatch.matches ts s' = true.
Proof.
  destruct s as [|c s]; simpl.
  - split; [discriminate | intros (? & ? & _); discriminate].
  - rewrite andb_true_iff, Ascii.eqb_eq. split.
    + intros [-> ?]. eauto.
    + intros (? & [= -> ->] & ?). done.
Qed.

(** ** The skill matcher *)



Lemma prefilter_items items filename :
  _matches_any_pattern_items items filename = true <->
  _match_file_to_skill_items items filename <> Ok None.
Proof.
  induction items as [|[key e] items IH]; simpl.
  - split; [discriminate | congruence].
  - destruct (pattern_matches filename e); [|exact IH].
    destruct (e_doc_id e); split; auto; discriminate.
Qed.





(** ** Readiness detection *)

Lemma stable_pair_cons a b l :
  stable_pair (a :: b :: l) <-> (a = b /\ (0 < b)%Z) \/ stable_pair (b :: l).
Proof.
  unfold stable_pair. split.
  - intros (i & s & Hi & Hsi & Hs). destruct i as [|i]; simpl in *.
    + left. split; congruence.
    + right. eauto.
  - intros [[-> Hb] | (i & s & Hi & Hsi & Hs)].
    + exists 0, b. auto.
    + exists (S i), s. auto.
Qed.

Lemma stable_pair_single a : ~ stable_pair [a].
Proof. intros (i & s & _ & Hsi & _). destruct i; discriminate. Qed.

Lemma sizes_seen_S w start n :
  sizes_seen w start (S n) =
  match getsize w start with
  | Size c => c :: sizes_seen w (S start) n
  | StatError _ => sizes_seen w (S start) n
  end.
Proof. unfold sizes_seen. simpl. destruct (getsize w start); reflexivity. Qed.

(** The loop answers [True] exactly when the size it remembers followed by
    the sizes it is going to see contains a stable pair. *)
Lemma wait_loop_ready w filepath fuel :
  forall last_size retry_count wait_time,
    (wait_loop w filepath fuel last_size retry_count wait_time).2 = true <->
    stable_pair (last_size :: sizes_seen w retry_count fuel).
Proof.
  induction fuel as [|fuel IH]; intros last rc wt.
  - simpl. split; [discriminate|]. intros H. by apply stable_pair_single in H.
  - rewrite sizes_seen_S. simpl. destruct (getsize w rc) as [c|e].
    + rewrite stable_pair_cons.
      destruct ((c =? last)%Z && (c >? 0)%Z) eqn:Hc.
      * simpl. apply andb_true_iff in Hc as [H1 H2].
        apply Z.eqb_eq in H1. apply Z.gtb_lt in H2. split; auto.
      * specialize (IH c (S rc) (Qmin (wt * (3 # 2)) 2)).
        destruct (wait_loop w filepath fuel c (S rc) (Qmin (wt * (3 # 2)) 2))
          as [tr r]. simpl in *. rewrite IH.
        split; [auto|]. intros [[-> Hpos]|H]; [|done].
        apply andb_false_iff in Hc as [Hc|Hc].
        -- apply Z.eqb_neq in Hc. done.
        -- apply Z.gtb_lt in Hpos. congruence.
    + specialize (IH last (S rc) wt).
      destruct (wait_loop w filepath fuel last (S rc) wt) as [tr r].
      simpl in *. exact IH.
Qed.

Lemma sizes_seen_elem w start n s :
  s ∈ sizes_seen w start n ->
  exists k, start <= k < start + n /\ getsize w k = Size s.
Proof.
  unfold sizes_seen. intros (k & Hk & Hs)%list_elem_of_omap.
  apply elem_of_seq in Hk. exists k. split; [lia|].
  destruct (getsize w k); simpl in Hs; congruence.
Qed.

Lemma wait_ready_iff w filepath max_retries :
  (_wait_for_file_ready w filepath max_retries).2 = true <->
  path_exists w = true /\ stable_pair (size_observations w max_retries).
Proof.
  unfold _wait_for_file_ready, size_observations.
  destruct (path_exists w); simpl.
  - pose proof (wait_loop_ready w filepath max_retries (-1)%Z 0 (1 # 10)) as H.
    destruct (wait_loop w filepath max_retries (-1)%Z 0 (1 # 10)) as [tr r].
    simpl in H. assert (Hr : (if r then (tr, true)
      else (tr ++ [Log WARNING (MsgNotReady max_retries filepath)], false)).2 = r)
      by (destruct r; reflexivity).
    rewrite Hr, H. split.
    + intros Hs. split; [done|].
      destruct (sizes_seen w 0 max_retries) as [|b l] eqn:Hl.
      * by apply stable_pair_single in Hs.
      * apply stable_pair_cons in Hs as [[<- Hpos]|Hs]; [lia|done].
    + intros [_ Hs]. destruct (sizes_seen w 0 max_retries) as [|b l] eqn:Hl.
      * destruct Hs as (i & s & Hi & _). destruct i; discriminate.
      * apply stable_pair_cons. by right.
  - split; [discriminate | intros [? _]; discriminate].
Qed.

(** C2. Readiness is reported exactly when the file exists at the start and,
    among the size observations made within the retry budget (10 attempts by
    default), two consecutive ones are equal and greater than zero.  A file
    that does not exist at the start, one that never shows such a pair, and
    one whose size is zero at every observation are reported not ready. *)
Theorem C2_ready_iff_stable :
  forall w filepath max_retries,
    ((_wait_for_file_ready w filepath max_retries).2 = true <->
     path_exists w = true /\ stable_pair (size_observations w max_retries)) /\
    (path_exists w = false ->
     _wait_for_file_ready w filepath max_retries = ([], false)) /\
    (~ stable_pair (size_observations w max_retries) ->
     (_wait_for_file_ready w filepath max_retries).2 = false) /\
    ((forall k n, k < max_retries -> getsize w k = Size n -> n = 0%Z) ->
     (_wait_for_file_ready w filepath max_retries).2 = false) /\
    default_wait_retries = 10.
Proof.
  intros w filepath max_retries.
  pose proof (wait_ready_iff w filepath max_retries) as Hiff.
  split; [exact Hiff|]. split; [|split; [|split; [|reflexivity]]].
  - intros He. unfold _wait_for_file_ready. rewrite He. reflexivity.
  - intros Hn. apply not_true_is_false. rewrite Hiff. tauto.
  - intros Hz. apply not_true_is_false. rewrite Hiff.
    intros [_ (i & s & Hi & _ & Hpos)].
    apply list_elem_of_lookup_2, sizes_seen_elem in Hi as (k & Hk & Hs).
    specialize (Hz k s ltac:(lia) Hs). lia.
Qed.

Lemma C2_ready_iff_stable_witness :
  (_wait_for_file_ready calm_world "/watch/report.txt" 10).2 = true /\
  (_wait_for_file_ready flaky_world "/watch/report.txt" 10).2 = true /\
  (_wait_for_file_ready flaky_world "/watch/report.txt" 2).2 = false.
Proof.
  split; [|split].
  - apply (proj1 (C2_ready_iff_stable calm_world "/watch/report.txt" 10)).
    split; [reflexivity|]. exists 0, 5%Z. split; [reflexivity|]. split; [reflexivity|lia].
  - apply (proj1 (C2_ready_iff_stable flaky_world "/watch/report.txt" 10)).
    split; [reflexivity|]. exists 0, 5%Z. split; [reflexivity|]. split; [reflexivity|lia].
  - apply (proj1 (proj2 (proj2 (C2_ready_iff_stable flaky_world "/watch/report.txt" 2)))).
    intros (i & s & Hi & Hsi & _). destruct i; discriminate.
Defined.

(** ** Backoff *)

Lemma sleeps_app tr1 tr2 : sleeps (tr1 ++ tr2) = sleeps tr1 ++ sleeps tr2.
Proof.
  induction tr1 as [|ev tr1 IH]; [reflexivity|].
  destruct ev; simpl; rewrite ?IH; reflexivity.
Qed.




Lemma backoff_0 : backoff 0 == 1 # 10.
Proof. reflexivity. Qed.






(** ** Reading with retry *)

(** The loop stops at the first read that succeeds, fails otherwise than by
    permission, or is the last one allowed. *)
Lemma read_loop_stops w filepath max_retries :
  forall k fuel attempt,
    attempt + fuel = max_retries ->
    k < fuel ->
    (forall i, i < k -> denied w (attempt + i)) ->
    match open_read w (attempt + k) with
    | Ok _ => True
    | Raise e => is_PermissionError e = false \/ attempt + k = max_retries - 1
    end ->
    (read_loop w filepath max_retries fuel attempt).2
      = read_outcome (open_read w (attempt + k)) /\
    sleeps (read_loop w filepath max_retries fuel attempt).1
      = retry_delays attempt k.
Proof.
  induction k as [|k IH]; intros fuel attempt Hsum Hk Hden Hstop.
  - destruct fuel as [|fuel]; [lia|]. rewrite Nat.add_0_r in *. simpl.
    destruct (open_read w attempt) as [c|e]; [done|].
    destruct (is_PermissionError e) eqn:Hp.
    + destruct Hstop as [?|Hlast]; [done|].
      rewrite (proj2 (Nat.ltb_ge attempt (max_retries - 1))) by lia. done.
    + done.
  - destruct fuel as [|fuel]; [lia|]. simpl.
    destruct (Hden 0 ltac:(lia)) as (e & He & Hp). rewrite Nat.add_0_r in He.
    rewrite He, Hp.
    rewrite (proj2 (Nat.ltb_lt attempt (max_retries - 1))) by lia.
    specialize (IH fuel (S attempt) ltac:(lia) ltac:(lia)).
    replace (attempt + S k) with (S attempt + k) in Hstop |- * by lia.
    destruct (read_loop w filepath max_retries fuel (S attempt)) as [tr r].
    simpl in *. destruct IH as [-> ->].
    + intros i Hi. replace (S (attempt + i)) with (attempt + S i) by lia.
      apply Hden. lia.
    + destruct (open_read w (S (attempt + k))); [done|].
      destruct Hstop; [by left | right; lia].
    + done.
Qed.

(** C6. A read that meets a permission error is tried again, 5 attempts in
    all, with a sleep of 0.5 s times the number of the failed attempt in
    between; the fifth permission error is raised to the caller.  Any other
    error is raised at once, with no further attempt and no sleep of its
    own. *)
Theorem C6_read_retry :
  forall w filepath,
    let rd := _read_file_with_retry w filepath default_read_retries in
    (forall k content,
        k < 5 -> (forall i, i < k -> denied w i) ->
        open_read w k = Ok content ->
        rd.2 = Ok (Some content) /\ sleeps rd.1 = retry_delays 0 k) /\
    (forall e,
        (forall i, i < 4 -> denied w i) ->
        open_read w 4 = Raise e -> is_PermissionError e = true ->
        rd.2 = Raise e /\ sleeps rd.1 = retry_delays 0 4) /\
    (forall k e,
        k < 5 -> (forall i, i < k -> denied w i) ->
        open_read w k = Raise e -> is_PermissionError e = false ->
        rd.2 = Raise e /\ sleeps rd.1 = retry_delays 0 k) /\
    default_read_retries = 5 /\
    Forall2 Qeq (retry_delays 0 4) [1 # 2; 1; 3 # 2; 2]%Q.
Proof.
  intros w filepath rd. subst rd. unfold _read_file_with_retry, default_read_retries.
  split; [|split; [|split; [|split]]].
  - intros k content Hk Hden Hok.
    pose proof (read_loop_stops w filepath 5 k 5 0 eq_refl Hk Hden) as H.
    cbn [Nat.add] in H. rewrite Hok in H. apply H. exact I.
  - intros e Hden He Hp.
    pose proof (read_loop_stops w filepath 5 4 5 0 eq_refl ltac:(lia) Hden) as H.
    cbn [Nat.add] in H. rewrite He in H. apply H. by right.
  - intros k e Hk Hden He Hp.
    pose proof (read_loop_stops w filepath 5 k 5 0 eq_refl Hk Hden) as H.
    cbn [Nat.add] in H. rewrite He in H. apply H. by left.
  - reflexivity.
  - repeat constructor.
Qed.

Lemma C6_read_retry_witness :
  (_read_file_with_retry locked_world "/watch/report.txt" default_read_retries).2
    = Ok (Some "Hello") /\
  sleeps (_read_file_with_retry locked_world "/watch/report.txt"
            default_read_retries).1 = retry_delays 0 2.
Proof.
  refine (proj1 (C6_read_retry locked_world "/watch/report.txt") 2 "Hello" _ _ _).
  - lia.
  - intros i Hi. exists (PermissionError "Permission denied").
    destruct i as [|[|i]]; [done | done | lia].
  - reflexivity.
Defined.

(** ** The pieces of the pipeline *)

Lemma inserts_app tr1 tr2 : inserts (tr1 ++ tr2) = inserts tr1 ++ inserts tr2.
Proof.
  induction tr1 as [|ev tr1 IH]; [reflexivity|].
  destruct ev; simpl; rewrite ?IH; reflexivity.
Qed.

Lemma renames_app tr1 tr2 : renames (tr1 ++ tr2) = renames tr1 ++ renames tr2.
Proof.
  induction tr1 as [|ev tr1 IH]; [reflexivity|].
  destruct ev; simpl; rewrite ?IH; reflexivity.
Qed.

Lemma read_loop_no_inserts w filepath max_retries fuel :
  forall attempt, inserts (read_loop w filepath max_retries fuel attempt).1 = [].
Proof.
  induction fuel as [|fuel IH]; intros attempt; [reflexivity|]. simpl.
  destruct (open_read w attempt) as [c|e]; [reflexivity|].
  destruct (is_PermissionError e); [|reflexivity].
  destruct (Nat.ltb attempt (max_retries - 1)); [|reflexivity].
  specialize (IH (S attempt)).
  destruct (read_loop w filepath max_retries fuel (S attempt)). exact IH.
Qed.

Lemma init_service_spec self w :
  inserts (_init_google_service self w).1.2 = [] /\
  last_processed (_init_google_service self w).1.1 = last_processed self /\
  cfg (_init_google_service self w).1.1 = cfg self /\
  ((_init_google_service self w).2 = Ok () ->
   docs_service (_init_google_service self w).1.1 = true).
Proof.
  unfold _init_google_service.
  destruct (from_service_account_file w); [destruct (build w)|]; simpl;
    repeat split; try done.
Qed.

(** An append that returns has inserted the envelope once, one position
    before the end of the last block; an append that raises has inserted
    nothing. *)
Lemma append_spec self w doc content skill :
  match (_append_to_doc self w doc content skill).2 with
  | Ok _ =>
      exists d index,
        documents_get w = Ok d /\ end_index d = Ok index /\
        batchUpdate w = Ok () /\
        inserts (_append_to_doc self w doc content skill).1
          = [(doc, index, full_content skill (strftime (now w)) content)]
  | Raise _ => inserts (_append_to_doc self w doc content skill).1 = []
  end.
Proof.
  unfold _append_to_doc, _append_to_doc_try.
  destruct (docs_service self); simpl; [|reflexivity].
  destruct (documents_get w) as [d|e]; simpl; [|reflexivity].
  destruct (end_index d) as [index|e] eqn:Hi; simpl; [|reflexivity].
  destruct (batchUpdate w) as [[]|e]; simpl; [|reflexivity].
  exists d, index. auto.
Qed.

Lemma archive_spec (P : Platform) self w filepath :
  (_archive_file self w filepath).2 = Ok () /\
  inserts (_archive_file self w filepath).1 = [].
Proof.
  unfold _archive_file, _archive_file_try.
  destruct (makedirs w); simpl; [|done].
  destruct (String.eqb _ _); simpl; [done|].
  destruct (rename w); simpl; done.
Qed.

(** The body of the [try]: either nothing was inserted and the marker set is
    as before, or every stage up to the append succeeded, the envelope was
    inserted once and the marker set gained [id]. *)
Lemma process_file_try_spec (P : Platform) self w filepath filename id :
  let out := process_file_try self w filepath filename id in
  cfg out.1.1 = cfg self /\
  ((inserts out.1.2 = [] /\ last_processed out.1.1 = last_processed self) \/
   (exists skill content d index,
       _match_file_to_skill (cfg self) filename = Ok (Some skill) /\
       (_read_file_with_retry w filepath default_read_retries).2
         = Ok (Some content) /\
       (docs_service self = true \/ (_init_google_service self w).2 = Ok ()) /\
       documents_get w = Ok d /\ end_index d = Ok index /\
       batchUpdate w = Ok () /\
       inserts out.1.2
         = [(doc_id skill, index,
             full_content (name skill) (strftime (now w)) content)] /\
       last_processed out.1.1 = {[ id ]} ∪ last_processed self /\
       out.2 = Ok ())).
Proof.
  unfold process_file_try.
  destruct (_match_file_to_skill (cfg self) filename) as [[skill|]|e] eqn:Hm;
    simpl; [|by auto|by auto].
  pose proof (read_loop_no_inserts w filepath default_read_retries
                default_read_retries 0) as Hrd.
  fold (_read_file_with_retry w filepath default_read_retries) in Hrd.
  destruct (_read_file_with_retry w filepath default_read_retries)
    as [tr2 [content|e]] eqn:Hr; simpl in Hrd; [|simpl; rewrite Hrd; by auto].
  destruct (falsy content) eqn:Hf.
  { simpl. rewrite inserts_app, Hrd. by auto. }
  destruct content as [content|]; [|discriminate].
  set (tr3 := match chmod w with
              | Ok _ => [Chmod filepath 420]
              | Raise e => [Log WARNING (MsgChmodFailed e)]
              end).
  assert (Htr3 : inserts tr3 = []) by (subst tr3; destruct (chmod w); done).
  set (st := if docs_service self then (self, [], Ok ())
             else _init_google_service self w).
  assert (Hst : inserts st.1.2 = [] /\ last_processed st.1.1 = last_processed self
                /\ cfg st.1.1 = cfg self
                /\ (st.2 = Ok () ->
                    docs_service self = true
                    \/ (_init_google_service self w).2 = Ok ())).
  { subst st. destruct (docs_service self); [by auto|].
    pose proof (init_service_spec self w). intuition. }
  destruct st as [[self1 tr4] started]. simpl in Hst.
  destruct Hst as (Htr4 & Hlp & Hcfg & Hstarted).
  destruct started as [[]|e].
  2:{ simpl. rewrite !inserts_app, Hrd, Htr3, Htr4. by auto. }
  pose proof (append_spec self1 w (doc_id skill) content (name skill)) as Hap.
  simpl. destruct (_append_to_doc self1 w (doc_id skill) content (name skill))
    as [tr5 [[]|e]]; simpl in Hap.
  2:{ simpl. rewrite !inserts_app, Hrd, Htr3, Htr4, Hap. by auto. }
  destruct Hap as (d & index & Hd & Hi & Hb & Hins).
  pose proof (archive_spec P (mark_processed self1 id) w filepath) as [Har1 Har2].
  destruct (_archive_file (mark_processed self1 id) w filepath) as [tr6 r6].
  simpl in Har1, Har2. subst r6. simpl. split; [done|]. right.
  exists skill, content, d, index.
  rewrite !inserts_app, Hrd, Htr3, Htr4, Hins, Har2, Hlp. simpl.
  repeat split; try done. by apply Hstarted.
Qed.

(** What one call of [process_file] does: it raises only when the
    modification time cannot be read; it skips a marked file; otherwise it
    either inserts nothing and leaves the marker set alone, or inserts the
    envelope once and marks the file. *)
Lemma process_file_spec (P : Platform) self w filepath :
  let out := process_file self w filepath in
  match getmtime w with
  | Raise e => out = (self, [], Raise e)
  | Ok mtime =>
      out.2 = Ok () /\ cfg out.1.1 = cfg self /\
      if bool_decide (file_id filepath mtime ∈ last_processed self) then
        out = (self, [Log INFO (MsgSkipping (Posixpath.basename filepath))], Ok ())
      else
        (inserts out.1.2 = [] /\ last_processed out.1.1 = last_processed self) \/
        (exists skill content d index,
            _match_file_to_skill (cfg self) (Posixpath.basename filepath)
              = Ok (Some skill) /\
            (_read_file_with_retry w filepath default_read_retries).2
              = Ok (Some content) /\
            (docs_service self = true
             \/ (_init_google_service self w).2 = Ok ()) /\
            documents_get w = Ok d /\ end_index d = Ok index /\
            batchUpdate w = Ok () /\
            inserts out.1.2
              = [(doc_id skill, index,
                  full_content (name skill) (strftime (now w)) content)] /\
            last_processed out.1.1
              = {[ file_id filepath mtime ]} ∪ last_processed self)
  end.
Proof.
  unfold process_file. destruct (getmtime w) as [mtime|e]; [|reflexivity].
  destruct (bool_decide (file_id filepath mtime ∈ last_processed self)); [done|].
  pose proof (process_file_try_spec P self w filepath
                (Posixpath.basename filepath) (file_id filepath mtime)) as Ht.
  destruct (process_file_try self w filepath (Posixpath.basename filepath)
              (file_id filepath mtime)) as [[self' tr] r].
  simpl in Ht. destruct Ht as [Hcfg Ht].
  destruct r as [[]|e]; simpl.
  - split; [done|]. split; [done|].
    destruct Ht as [H|(sk & c & d & ix & H1 & H2 & H3 & H4 & H5 & H6 & H7 & H8 & _)];
      [by left|right]. exists sk, c, d, ix. done.
  - split; [done|]. split; [done|]. left.
    destruct Ht as [[H1 H2]|(sk & c & d & ix & _ & _ & _ & _ & _ & _ & _ & _ & ?)];
      [|discriminate].
    rewrite inserts_app, H1. done.
Qed.

(** The success path exists: when every stage up to the append succeeds on
    a file not yet marked, the envelope is inserted and the file is marked,
    whatever the archive step meets. *)
Lemma process_file_appends (P : Platform) self w filepath mtime skill content d index :
  getmtime w = Ok mtime ->
  file_id filepath mtime ∉ last_processed self ->
  _match_file_to_skill (cfg self) (Posixpath.basename filepath) = Ok (Some skill) ->
  (_read_file_with_retry w filepath default_read_retries).2 = Ok (Some content) ->
  content <> "" ->
  (docs_service self = true \/ (_init_google_service self w).2 = Ok ()) ->
  documents_get w = Ok d -> end_index d = Ok index -> batchUpdate w = Ok () ->
  let out := process_file self w filepath in
  out.2 = Ok () /\
  inserts out.1.2
    = [(doc_id skill, index, full_content (name skill) (strftime (now w)) content)] /\
  last_processed out.1.1 = {[ file_id filepath mtime ]} ∪ last_processed self.
Proof.
  intros Hmt Hnew Hm Hr Hne Hsvc Hd Hi Hb out. subst out.
  unfold process_file. rewrite Hmt, bool_decide_eq_false_2 by exact Hnew.
  unfold process_file_try. rewrite Hm.
  pose proof (read_loop_no_inserts w filepath default_read_retries
                default_read_retries 0) as Hrd.
  fold (_read_file_with_retry w filepath default_read_retries) in Hrd.
  destruct (_read_file_with_retry w filepath default_read_retries) as [tr2 rd].
  simpl in Hr, Hrd. subst rd.
  assert (Hf : falsy (Some content) = false) by (simpl; by apply String.eqb_neq).
  rewrite Hf.
  assert (Hst : exists self1 tr4,
             (if docs_service self then (self, [], Ok ())
              else _init_google_service self w) = (self1, tr4, Ok ())
             /\ docs_service self1 = true /\ inserts tr4 = []
             /\ last_processed self1 = last_processed self).
  { destruct (docs_service self) eqn:Hds; [by eauto 10|].
    destruct Hsvc as [?|Hinit]; [done|].
    pose proof (init_service_spec self w) as (Hins & Hlp & _ & Hon).
    destruct (_init_google_service self w) as [[s1 t4] r4]. simpl in *.
    subst r4. eauto 10. }
  destruct Hst as (self1 & tr4 & -> & Hon & Htr4 & Hlp).
  unfold _append_to_doc, _append_to_doc_try. rewrite Hon, Hd, Hi, Hb. simpl.
  pose proof (archive_spec P (mark_processed self1 (file_id filepath mtime))
                w filepath) as [Ha Hai].
  destruct (_archive_file _ w filepath) as [tr6 r6]. simpl in Ha, Hai. subst r6.
  simpl. split; [reflexivity|]. rewrite Hlp. split; [|reflexivity].
  rewrite !inserts_app, Hrd, Htr4. cbn [inserts].
  rewrite inserts_app, Hai. destruct (chmod w); reflexivity.
Qed.

(** ** The processed markers *)

(** C9. The marker set follows the append: [process_file] adds the file's
    identity exactly when its call inserted the envelope.  A failure of the
    matcher, of the read, of the service start or of the append leaves
    nothing inserted and the set as it was; and once every stage up to the
    append has succeeded the file is marked, whatever [os.makedirs] and
    [os.rename] answer afterwards. *)
Theorem C9_marker_follows_append :
  forall (P : Platform) self w filepath,
    let out := process_file self w filepath in
    (inserts out.1.2 = [] -> last_processed out.1.1 = last_processed self) /\
    (inserts out.1.2 <> [] ->
     exists mtime,
       getmtime w = Ok mtime /\
       last_processed out.1.1 = {[ file_id filepath mtime ]} ∪ last_processed self) /\
    ((exists e, _match_file_to_skill (cfg self) (Posixpath.basename filepath)
                = Raise e) ->
     inserts out.1.2 = []) /\
    ((exists e, (_read_file_with_retry w filepath default_read_retries).2
                = Raise e) ->
     inserts out.1.2 = []) /\
    (docs_service self = false ->
     (exists e, (_init_google_service self w).2 = Raise e) ->
     inserts out.1.2 = []) /\
    ((exists e, documents_get w = Raise e) \/
     (exists d e, documents_get w = Ok d /\ end_index d = Raise e) \/
     (exists e, batchUpdate w = Raise e) ->
     inserts out.1.2 = []) /\
    (forall mtime skill content d index,
        getmtime w = Ok mtime ->
        file_id filepath mtime ∉ last_processed self ->
        _match_file_to_skill (cfg self) (Posixpath.basename filepath)
          = Ok (Some skill) ->
        (_read_file_with_retry w filepath default_read_retries).2
          = Ok (Some content) ->
        content <> "" ->
        (docs_service self = true \/ (_init_google_service self w).2 = Ok ()) ->
        documents_get w = Ok d -> end_index d = Ok index ->
        batchUpdate w = Ok () ->
        inserts out.1.2 <> [] /\
        file_id filepath mtime ∈ last_processed out.1.1).
Proof.
  intros P self w filepath out.
  pose proof (process_file_spec P self w filepath) as Hs. fold out in Hs.
  cbv zeta in Hs.
  assert (Hcases :
    (inserts out.1.2 = [] /\ last_processed out.1.1 = last_processed self) \/
    (exists mtime skill content d index,
        getmtime w = Ok mtime /\
        _match_file_to_skill (cfg self) (Posixpath.basename filepath)
          = Ok (Some skill) /\
        (_read_file_with_retry w filepath default_read_retries).2
          = Ok (Some content) /\
        (docs_service self = true \/ (_init_google_service self w).2 = Ok ()) /\
        documents_get w = Ok d /\ end_index d = Ok index /\
        batchUpdate w = Ok () /\
        inserts out.1.2 <> [] /\
        last_processed out.1.1
          = {[ file_id filepath mtime ]} ∪ last_processed self)).
  { destruct (getmtime w) as [mtime|e].
    - destruct Hs as (_ & _ & Hs).
      destruct (bool_decide (file_id filepath mtime ∈ last_processed self)).
      + rewrite Hs. by left.
      + destruct Hs as [H|(sk & c & d & ix & H1 & H2 & H3 & H4 & H5 & H6 & H7 & H8)];
          [by left|right].
        exists mtime, sk, c, d, ix. rewrite H7. done.
    - rewrite Hs. by left. }
  clear Hs. split; [|split; [|split; [|split; [|split; [|split]]]]].
  - intros Hnone. destruct Hcases as [[_ ?]|(? & ? & ? & ? & ? & H)]; [done|].
    destruct H as (_ & _ & _ & _ & _ & _ & _ & Hne & _). done.
  - intros Hne. destruct Hcases as [[? _]|(mt & ? & ? & ? & ? & H)]; [done|].
    exists mt. destruct H as (? & _ & _ & _ & _ & _ & _ & _ & ?). done.
  - intros [e He]. destruct Hcases as [[? _]|(? & ? & ? & ? & ? & H)]; [done|].
    destruct H as (_ & Hm & _). congruence.
  - intros [e He]. destruct Hcases as [[? _]|(? & ? & ? & ? & ? & H)]; [done|].
    destruct H as (_ & _ & Hr & _). congruence.
  - intros Hoff [e He]. destruct Hcases as [[? _]|(? & ? & ? & ? & ? & H)]; [done|].
    destruct H as (_ & _ & _ & [Hon|Hinit] & _); congruence.
  - intros Hfail. destruct Hcases as [[? _]|(? & ? & ? & d & ? & H)]; [done|].
    destruct H as (_ & _ & _ & _ & Hd & Hi & Hb & _).
    destruct Hfail as [[e He]|[(d' & e & Hd' & He)|[e He]]]; congruence.
  - intros mtime skill content d index Hmt Hnew Hm Hr Hne Hsvc Hd Hi Hb.
    pose proof (process_file_appends P self w filepath mtime skill content d index
                  Hmt Hnew Hm Hr Hne Hsvc Hd Hi Hb) as (_ & Hins & Hlp).
    fold out in Hins, Hlp. rewrite Hins, Hlp. split; [done|].
    apply elem_of_union_l, elem_of_singleton. reflexivity.
Qed.

Lemma C9_marker_follows_append_witness :
  let out := @process_file demo_platform (init weekly_cfg) no_move_world
               "/watch/report.txt" in
  inserts out.1.2 <> [] /\ "/watch/report.txt:1718000000.0" ∈ last_processed out.1.1.
Proof.
  refine (proj2 (proj2 (proj2 (proj2 (proj2 (proj2
           (C9_marker_follows_append demo_platform (init weekly_cfg)
              no_move_world "/watch/report.txt"))))))
           1718000000%float
           {| name := "weekly"; doc_id := "D1"; skill_name := "Weekly" |}
           "Hello" {| body_content := [1; 42]%Z |} 41%Z _ _ _ _ _ _ _ _ _);
    try reflexivity.
  - simpl. set_solver.
  - discriminate.
  - right. reflexivity.
Defined.

Lemma process_file_keeps_markers (P : Platform) self w filepath id :
  id ∈ last_processed self ->
  id ∈ last_processed (process_file self w filepath).1.1.
Proof.
  intros Hin. pose proof (process_file_spec P self w filepath) as Hs.
  cbv zeta in Hs. destruct (getmtime w) as [mtime|e].
  - destruct Hs as (_ & _ & Hs).
    destruct (bool_decide (file_id filepath mtime ∈ last_processed self)).
    + rewrite Hs. exact Hin.
    + destruct Hs as [[_ ->]|(? & ? & ? & ? & H)]; [exact Hin|].
      destruct H as (_ & _ & _ & _ & _ & _ & _ & ->).
      apply elem_of_union_r. exact Hin.
  - rewrite Hs. exact Hin.
Qed.

Lemma process_file_insert_marks (P : Platform) self w filepath :
  inserts (process_file self w filepath).1.2 <> [] ->
  exists mtime,
    getmtime w = Ok mtime /\
    last_processed (process_file self w filepath).1.1
      = {[ file_id filepath mtime ]} ∪ last_processed self.
Proof.
  intros Hins. pose proof (process_file_spec P self w filepath) as Hs.
  cbv zeta in Hs. destruct (getmtime w) as [mtime|e].
  - destruct Hs as (_ & _ & Hs). exists mtime. split; [reflexivity|].
    destruct (bool_decide (file_id filepath mtime ∈ last_processed self)).
    + rewrite Hs in Hins. done.
    + destruct Hs as [[? _]|(? & ? & ? & ? & H)]; [done|].
      destruct H as (_ & _ & _ & _ & _ & _ & _ & ->). reflexivity.
  - rewrite Hs in Hins. done.
Qed.

Lemma process_file_inserts_once (P : Platform) self w filepath :
  length (inserts (process_file self w filepath).1.2) <= 1.
Proof.
  pose proof (process_file_spec P self w filepath) as Hs.
  cbv zeta in Hs. destruct (getmtime w) as [mtime|e].
  - destruct Hs as (_ & _ & Hs).
    destruct (bool_decide (file_id filepath mtime ∈ last_processed self)).
    + rewrite Hs. simpl. lia.
    + destruct Hs as [[-> _]|(? & ? & ? & ? & H)]; [simpl; lia|].
      destruct H as (_ & _ & _ & _ & _ & _ & -> & _). simpl. lia.
  - rewrite Hs. simpl. lia.
Qed.

Lemma run_lookup (P : Platform) calls :
  forall self j w filepath,
    calls !! j = Some (w, filepath) ->
    run self calls !! j
      = Some (process_file (handler_before self calls j) w filepath).
Proof.
  induction calls as [|[w0 f0] calls IH]; intros self j w filepath Hj;
    [discriminate|].
  destruct j as [|j]; simpl in *.
  - injection Hj as -> ->. reflexivity.
  - apply IH. exact Hj.
Qed.

Lemma handler_before_keeps_markers (P : Platform) calls :
  forall self j id,
    id ∈ last_processed self ->
    id ∈ last_processed (handler_before self calls j).
Proof.
  induction calls as [|[w0 f0] calls IH]; intros self j id Hin.
  - destruct j; exact Hin.
  - destruct j as [|j]; simpl; [exact Hin|].
    apply IH. apply process_file_keeps_markers. exact Hin.
Qed.

(** A marked identity is skipped by every later call that presents it. *)
Lemma marked_is_skipped (P : Platform) calls self j w filepath mtime :
  file_id filepath mtime ∈ last_processed self ->
  calls !! j = Some (w, filepath) ->
  getmtime w = Ok mtime ->
  run self calls !! j =
  Some (handler_before self calls j,
        [Log INFO (MsgSkipping (Posixpath.basename filepath))], Ok ()).
Proof.
  intros Hin Hj Hmt.
  eapply eq_trans; [apply (run_lookup P calls self j w filepath Hj)|].
  f_equal. unfold process_file. rewrite Hmt.
  rewrite bool_decide_eq_true_2; [reflexivity|].
  apply handler_before_keeps_markers. exact Hin.
Qed.

(** C1. Within one run of calls on a handler, every call inserts at most
    once, and once a call for a path with a given modification time has
    inserted, every later call for the same path with the same modification
    time returns at the duplicate check: it logs the skip, inserts nothing,
    raises nothing and leaves the handler as it found it. *)
Theorem C1_one_append_per_identity :
  forall (P : Platform) self calls,
    (forall k out, run self calls !! k = Some out -> length (inserts out.1.2) <= 1) /\
    (forall i j wi wj filepath mtime outi,
        i < j ->
        calls !! i = Some (wi, filepath) -> getmtime wi = Ok mtime ->
        calls !! j = Some (wj, filepath) -> getmtime wj = Ok mtime ->
        run self calls !! i = Some outi -> inserts outi.1.2 <> [] ->
        run self calls !! j =
        Some (handler_before self calls j,
              [Log INFO (MsgSkipping (Posixpath.basename filepath))], Ok ())).
Proof.
  intros P self calls. split.
  - intros k out Hk. destruct (calls !! k) as [[w f]|] eqn:Hc.
    + pose proof (run_lookup P calls self k w f Hc) as Hl.
      assert (out = process_file (handler_before self calls k) w f) as ->
        by congruence.
      apply process_file_inserts_once.
    + apply lookup_ge_None in Hc. apply lookup_lt_Some in Hk.
      assert (Hlen : forall s, length (run s calls) = length calls).
      { clear. induction calls as [|[w f] calls IH]; intros s; simpl;
          [reflexivity|]. by rewrite IH. }
      rewrite Hlen in Hk. lia.
  - revert self. induction calls as [|[w0 f0] calls IH];
      intros self i j wi wj filepath mtime outi Hij Hi Hmi Hj Hmj Hri Hins;
      [discriminate|].
    destruct j as [|j]; [lia|]. destruct i as [|i]; simpl in *.
    + injection Hi as -> ->. injection Hri as <-.
      apply (marked_is_skipped P calls _ j wj filepath mtime); [|done|done].
      destruct (process_file_insert_marks P self wi filepath Hins)
        as (mt & Hmt & ->). rewrite Hmi in Hmt.
      injection Hmt as <-. apply elem_of_union_l, elem_of_singleton. reflexivity.
    + apply (IH _ i j wi wj filepath mtime outi); try done. lia.
Qed.

Lemma C1_one_append_per_identity_witness :
  let calls := [(calm_world, "/watch/report.txt"); (calm_world, "/watch/report.txt")] in
  @run demo_platform (init weekly_cfg) calls !! 1 =
  Some (@handler_before demo_platform (init weekly_cfg) calls 1,
        [Log INFO (MsgSkipping "report.txt")], Ok ()).
Proof.
  refine (proj2 (C1_one_append_per_identity demo_platform (init weekly_cfg)
                   [(calm_world, "/watch/report.txt");
                    (calm_world, "/watch/report.txt")])
            0 1 calm_world calm_world "/watch/report.txt" 1718000000%float
            (@process_file demo_platform (init weekly_cfg) calm_world
               "/watch/report.txt") _ _ _ _ _ _ _);
    try reflexivity.
  - lia.
  - discriminate.
Defined.

(** ** Archiving *)

(** C8. [_archive_file] never raises: a failure of [os.makedirs] or of
    [os.rename] ends in an ERROR line and a normal return.  When the archive
    path and the source path have the same normal form, no move is made and
    no error is logged. *)
Theorem C8_archive_never_raises :
  forall (P : Platform) self w filepath,
    let out := _archive_file self w filepath in
    let archive_dir :=
      expanduser (default "~/Downloads" (archive_folder (cfg self))) in
    let archive_path := Posixpath.join archive_dir (Posixpath.basename filepath) in
    out.2 = Ok () /\
    (forall e, (_archive_file_try self w filepath).2 = Raise e ->
               List.last out.1 (Log INFO MsgServiceReady)
                 = Log ERROR (MsgArchiveError e)) /\
    (Posixpath.normpath archive_path = Posixpath.normpath filepath ->
     renames out.1 = [] /\
     out.2 = Ok () /\
     ((exists u, makedirs w = Ok u) ->
      out.1 = [Makedirs archive_dir;
               Log INFO (MsgStays (Posixpath.basename filepath))])).
Proof.
  intros P self w filepath out archive_dir archive_path.
  subst out archive_path archive_dir.
  unfold _archive_file, _archive_file_try.
  destruct (makedirs w) as [u|e0]; simpl.
  - destruct (String.eqb _ _) eqn:Heq; simpl.
    + split; [done|]. split; [discriminate|]. auto.
    + destruct (rename w) as [u'|e1]; simpl.
      * split; [done|]. split; [discriminate|].
        intros Hn. apply String.eqb_neq in Heq. done.
      * split; [done|]. split; [by intros e [= ->]|].
        intros Hn. apply String.eqb_neq in Heq. done.
  - split; [done|]. split; [by intros e [= ->]|].
    intros _. split; [done|]. split; [done|]. intros [u Hu]. discriminate.
Qed.

Lemma C8_archive_never_raises_witness :
  let out := @_archive_file demo_platform (init stay_cfg) no_move_world
               "/watch/./report.txt" in
  renames out.1 = [] /\
  out.2 = Ok () /\
  ((exists u, makedirs no_move_world = Ok u) ->
   out.1 = [Makedirs "/watch/"; Log INFO (MsgStays "report.txt")]).
Proof.
  refine (proj2 (proj2 (C8_archive_never_raises demo_platform (init stay_cfg)
                          no_move_world "/watch/./report.txt")) _).
  reflexivity.
Defined.

(** The move is attempted when the two paths differ, and its failure is
    swallowed as well. *)
Example archive_move_fails :
  @_archive_file demo_platform (init weekly_cfg) no_move_world "/watch/report.txt"
  = ([Makedirs "/archive";
      Log ERROR (MsgArchiveError (OSError "[Errno 13] Permission denied"))],
     Ok ()).
Proof. reflexivity. Qed.

Example archive_moves :
  @_archive_file demo_platform (init weekly_cfg) calm_world "/watch/report.txt"
  = ([Makedirs "/archive"; Rename "/watch/report.txt" "/archive/report.txt";
      Log INFO (MsgArchived "/archive/report.txt")],
     Ok ()).
Proof. reflexivity. Qed.

Example normpath_t1 : Posixpath.normpath "/watch/./a//b/../report.txt" = "/watch/a/report.txt".
Proof. reflexivity. Qed.
Example normpath_t2 : Posixpath.normpath "../x/" = "../x".
Proof. reflexivity. Qed.
Example normpath_t3 : Posixpath.normpath "//a/.." = "//".
Proof. reflexivity. Qed.
Example basename_t1 : Posixpath.basename "/watch/report.txt" = "report.txt".
Proof. reflexivity. Qed.
Example join_t1 : Posixpath.join "/watch/" "report.txt" = "/watch/report.txt".
Proof. reflexivity. Qed.

(** ** The envelope *)

Lemma strftime_length t : String.length (strftime t) = 19.
Proof. reflexivity. Qed.

(** The header carries whatever name it is handed; the separator is made of
    two line breaks, 80 equals signs and a line break. *)
Example envelope_shape :
  full_content "Weekly" "2024-06-10 12:00:07" "Hello" =
  nl +:+ nl +:+ str_mul "=" 80 +:+ nl
  +:+ "Added by Weekly daemon at 2024-06-10 12:00:07" +:+ nl
  +:+ nl +:+ nl +:+ str_mul "=" 80 +:+ nl
  +:+ "Hello"
  +:+ nl +:+ str_mul "=" 80 +:+ nl +:+ nl.
Proof. reflexivity. Qed.

Example strftime_noon : strftime noon = "2024-06-10 12:00:07".
Proof. reflexivity. Qed.

(** Every insert made by [process_file] is the envelope around the content
    read, addressed to the matched skill's document, one position before the
    end of the last block of the body; its header names the key of the
    matched skill. *)
Lemma insert_is_envelope (P : Platform) self w filepath doc index text :
  (doc, index, text) ∈ inserts (process_file self w filepath).1.2 ->
  exists skill content d,
    _match_file_to_skill (cfg self) (Posixpath.basename filepath) = Ok (Some skill) /\
    (_read_file_with_retry w filepath default_read_retries).2 = Ok (Some content) /\
    documents_get w = Ok d /\
    List.last (map Some (body_content d)) None = Some (index + 1)%Z /\
    doc = doc_id skill /\
    text = full_content (name skill) (strftime (now w)) content.
Proof.
  intros Hin. pose proof (process_file_spec P self w filepath) as Hs.
  cbv zeta in Hs. destruct (getmtime w) as [mtime|e].
  - destruct Hs as (_ & _ & Hs).
    destruct (bool_decide (file_id filepath mtime ∈ last_processed self)).
    + rewrite Hs in Hin. simpl in Hin. by apply elem_of_nil in Hin.
    + destruct Hs as [[Hn _]|(sk & c & d & ix & H)].
      * rewrite Hn in Hin. by apply elem_of_nil in Hin.
      * destruct H as (Hm & Hr & _ & Hd & Hi & _ & Hins & _).
        rewrite Hins in Hin. apply list_elem_of_singleton in Hin.
        injection Hin as -> -> ->. exists sk, c, d.
        repeat split; try done. unfold end_index in Hi.
        destruct (List.last (map Some (body_content d)) None) as [z|];
          [|discriminate].
        injection Hi as <-. f_equal. lia.
  - rewrite Hs in Hin. by apply elem_of_nil in Hin.
Qed.

(** C3, at the failing input: the skill [weekly] is configured with the
    display name [Weekly], the matcher returns that display name, and the
    header inserted into the document still reads [weekly], the key. *)
Theorem C3_header_names_the_key :
  let out := @process_file demo_platform (init weekly_cfg) calm_world
               "/watch/report.txt" in
  _match_file_to_skill weekly_cfg "report.txt"
    = Ok (Some {| name := "weekly"; doc_id := "D1"; skill_name := "Weekly" |}) /\
  inserts out.1.2
    = [("D1", 41%Z,
        separator +:+ "Added by weekly daemon at 2024-06-10 12:00:07" +:+ nl
        +:+ separator +:+ "Hello" +:+ footer)] /\
  inserts out.1.2
    <> [("D1", 41%Z,
         separator +:+ "Added by Weekly daemon at 2024-06-10 12:00:07" +:+ nl
         +:+ separator +:+ "Hello" +:+ footer)].
Proof.
  split; [reflexivity|]. split; [reflexivity|].
  vm_compute. discriminate.
Qed.

(** ** Failures of the per-file pipeline *)

(** [process_file] raises exactly when the modification time cannot be
    read; every failure behind the duplicate check is caught and logged. *)
Lemma process_file_raises_iff (P : Platform) self w filepath e :
  (process_file self w filepath).2 = Raise e <-> getmtime w = Raise e.
Proof.
  pose proof (process_file_spec P self w filepath) as Hs. cbv zeta in Hs.
  destruct (getmtime w) as [mtime|e'].
  - destruct Hs as (-> & _). split; discriminate.
  - rewrite Hs. simpl. split; congruence.
Qed.

Lemma process_file_logs_failure (P : Platform) self w filepath mtime e :
  getmtime w = Ok mtime ->
  file_id filepath mtime ∉ last_processed self ->
  (process_file_try self w filepath (Posixpath.basename filepath)
     (file_id filepath mtime)).2 = Raise e ->
  (process_file self w filepath).2 = Ok () /\
  List.last (process_file self w filepath).1.2 (Log INFO MsgServiceReady)
    = Log ERROR (MsgProcessError (Posixpath.basename filepath) e).
Proof.
  intros Hmt Hnew Hr. unfold process_file. rewrite Hmt.
  rewrite bool_decide_eq_false_2 by exact Hnew.
  destruct (process_file_try self w filepath (Posixpath.basename filepath)
              (file_id filepath mtime)) as [[self' tr] r].
  simpl in Hr. subst r. simpl. split; [reflexivity|]. apply last_last.
Qed.

(** C4, at the failing input: the file is gone when [process_file] asks for
    its modification time; the [OSError] is raised before the [try] is
    entered, nothing is logged, and the exception leaves [process_file] and
    [on_created]. *)
Theorem C4_getmtime_failure_escapes :
  @process_file demo_platform (init weekly_cfg) vanished_world "/watch/report.txt"
    = (init weekly_cfg, [],
       Raise (OSError "[Errno 2] No such file or directory")) /\
  (@on_created demo_platform (init weekly_cfg) vanished_world
     {| is_directory := false; src_path := "/watch/report.txt" |}).2
    = Raise (OSError "[Errno 2] No such file or directory").
Proof. split; reflexivity. Qed.

(** The same failure one statement later is caught: here the read fails. *)
Example read_failure_is_caught :
  let w := {| path_exists := true;
              getsize := fun _ => Size 5;
              getmtime := Ok 1718000000%float;
              open_read := fun _ => Raise (OSError "[Errno 2] No such file or directory");
              chmod := Ok ();
              from_service_account_file := Ok ();
              build := Ok ();
              documents_get := Ok {| body_content := [1; 42]%Z |};
              batchUpdate := Ok ();
              now := noon;
              makedirs := Ok ();
              rename := Ok () |} in
  @process_file demo_platform (init weekly_cfg) w "/watch/report.txt"
  = (init weekly_cfg,
     [Log INFO (MsgMatched "weekly" "report.txt");
      Log ERROR (MsgReadError (OSError "[Errno 2] No such file or directory"));
      Log ERROR (MsgProcessError "report.txt"
                   (OSError "[Errno 2] No such file or directory"))],
     Ok ()).
Proof. reflexivity. Qed.

(** A missing [doc_id] is a [KeyError] of the matcher, caught as well. *)
Example missing_doc_id_is_caught :
  @process_file demo_platform (init broken_cfg) calm_world "/watch/report.txt"
  = (init broken_cfg,
     [Log ERROR (MsgProcessError "report.txt" (KeyError "doc_id"))], Ok ()).
Proof. reflexivity. Qed.

(** ** The scenario of the specification *)

Example scenario_notes :
  (@on_created demo_platform (init notes_cfg) calm_world
     {| is_directory := false; src_path := "/watch/notes-2024.md" |}).1.2
  = [Log INFO (MsgCreated "notes-2024.md");
     Sleep (1 # 10);
     Log INFO (MsgFileReady "notes-2024.md" 5);
     Log INFO (MsgMatched "Notes" "notes-2024.md");
     Chmod "/watch/notes-2024.md" 420;
     Log INFO MsgServiceReady;
     InsertText "D1" 41 (full_content "Notes" "2024-06-10 12:00:07" "Hello");
     Log INFO (MsgAppended "D1");
     Makedirs "/archive";
     Rename "/watch/notes-2024.md" "/archive/notes-2024.md";
     Log INFO (MsgArchived "/archive/notes-2024.md");
     Log INFO (MsgProcessed "notes-2024.md")].
Proof. reflexivity. Qed.

(** * Further properties of the code *)

(** ** Readiness detection: budget, sleeps, total wait *)

Lemma wait_loop_extend w filepath fuel :
  forall extra last_size retry_count wait_time,
    (wait_loop w filepath fuel last_size retry_count wait_time).2 = true ->
    wait_loop w filepath (fuel + extra) last_size retry_count wait_time
    = wait_loop w filepath fuel last_size retry_count wait_time.
Proof.
  induction fuel as [|fuel IH]; intros extra last rc wt Hr; [discriminate|].
  simpl in *. destruct (getsize w rc) as [c|e].
  - destruct ((c =? last)%Z && (c >? 0)%Z); [reflexivity|].
    specialize (IH extra c (S rc) (Qmin (wt * (3 # 2)) 2)).
    destruct (wait_loop w filepath fuel c (S rc) (Qmin (wt * (3 # 2)) 2))
      as [tr r]. simpl in *. rewrite IH by exact Hr. reflexivity.
  - specialize (IH extra last (S rc) wt).
    destruct (wait_loop w filepath fuel last (S rc) wt) as [tr r].
    simpl in *. rewrite IH by exact Hr. reflexivity.
Qed.

(** X1. A larger retry budget never changes a positive answer: when the
    file is found ready within [n] attempts, every budget from [n] on gives
    the same answer after the same log lines and sleeps. *)
Theorem wait_ready_budget_monotone :
  forall w filepath n n',
    (_wait_for_file_ready w filepath n).2 = true ->
    n <= n' ->
    _wait_for_file_ready w filepath n' = _wait_for_file_ready w filepath n.
Proof.
  intros w filepath n n' Hr Hle. unfold _wait_for_file_ready in *.
  destruct (path_exists w); simpl in *; [|reflexivity].
  replace n' with (n + (n' - n)) by lia.
  pose proof (wait_loop_extend w filepath n (n' - n) (-1)%Z 0 (1 # 10)) as He.
  destruct (wait_loop w filepath n (-1)%Z 0 (1 # 10)) as [tr r].
  destruct r; [|discriminate]. rewrite He by reflexivity. reflexivity.
Qed.

Lemma wait_ready_budget_monotone_witness :
  _wait_for_file_ready calm_world "/watch/report.txt" 10
  = _wait_for_file_ready calm_world "/watch/report.txt" 2.
Proof.
  apply wait_ready_budget_monotone; [reflexivity | lia].
Defined.

Lemma wait_loop_sleep_count w filepath fuel :
  forall last_size retry_count wait_time,
    let out := wait_loop w filepath fuel last_size retry_count wait_time in
    (out.2 = false -> length (sleeps out.1) = fuel) /\
    (out.2 = true -> length (sleeps out.1) < fuel).
Proof.
  induction fuel as [|fuel IH]; intros last rc wt; simpl.
  - split; [reflexivity | discriminate].
  - destruct (getsize w rc) as [c|e].
    + destruct ((c =? last)%Z && (c >? 0)%Z); simpl.
      * split; [discriminate | lia].
      * specialize (IH c (S rc) (Qmin (wt * (3 # 2)) 2)).
        destruct (wait_loop w filepath fuel c (S rc) (Qmin (wt * (3 # 2)) 2)).
        simpl in *. destruct IH as [H1 H2]. split; intros H.
        -- rewrite H1 by exact H. reflexivity.
        -- specialize (H2 H). lia.
    + specialize (IH last (S rc) wt).
      destruct (wait_loop w filepath fuel last (S rc) wt).
      simpl in *. destruct IH as [H1 H2]. split; intros H.
      * rewrite H1 by exact H. reflexivity.
      * specialize (H2 H). lia.
Qed.

(** The first size read is never enough. *)
Lemma wait_loop_first_sleeps w filepath fuel retry_count wait_time :
  let out := wait_loop w filepath fuel (-1)%Z retry_count wait_time in
  out.2 = true -> 1 <= length (sleeps out.1).
Proof.
  destruct fuel as [|fuel]; simpl; [discriminate|].
  destruct (getsize w retry_count) as [c|e].
  - destruct ((c =? -1)%Z && (c >? 0)%Z) eqn:Hc.
    + apply andb_true_iff in Hc as [H1 H2].
      apply Z.eqb_eq in H1. apply Z.gtb_lt in H2. lia.
    + destruct (wait_loop w filepath fuel c (S retry_count) _). simpl. lia.
  - destruct (wait_loop w filepath fuel (-1)%Z (S retry_count) wait_time).
    simpl. lia.
Qed.

(** X2. The number of sleeps of the readiness check: a negative answer on a
    file that exists comes after exactly [max_retries] sleeps, a positive
    answer after at least one sleep and fewer than [max_retries]; for a file
    that does not exist there is no sleep at all.  So a budget of 0 or 1
    attempt can never find a file ready. *)
Theorem wait_sleep_count :
  forall w filepath max_retries,
    let out := _wait_for_file_ready w filepath max_retries in
    (path_exists w = false -> sleeps out.1 = []) /\
    (path_exists w = true -> out.2 = false ->
     length (sleeps out.1) = max_retries) /\
    (out.2 = true -> 1 <= length (sleeps out.1) < max_retries) /\
    (max_retries <= 1 -> out.2 = false).
Proof.
  intros w filepath n out. subst out. unfold _wait_for_file_ready.
  destruct (path_exists w); simpl.
  - pose proof (wait_loop_sleep_count w filepath n (-1)%Z 0 (1 # 10)) as Hc.
    pose proof (wait_loop_first_sleeps w filepath n 0 (1 # 10)) as Hf.
    destruct (wait_loop w filepath n (-1)%Z 0 (1 # 10)) as [tr r].
    simpl in Hc, Hf. destruct Hc as [Hc0 Hc1].
    destruct r; simpl.
    + specialize (Hc1 eq_refl). specialize (Hf eq_refl).
      repeat split; try done; lia.
    + rewrite ?sleeps_app; simpl; rewrite ?app_nil_r.
      repeat split; try done; auto.
  - repeat split; try done; discriminate.
Qed.

Lemma wait_sleep_count_witness :
  1 <= length (sleeps (_wait_for_file_ready flaky_world "/watch/report.txt" 10).1) < 10.
Proof.
  refine (proj1 (proj2 (proj2 (wait_sleep_count flaky_world "/watch/report.txt" 10))) _).
  reflexivity.
Defined.







(** ** Reading with retry: what the loop can return and how long it sleeps *)

Lemma read_loop_shape w filepath max_retries fuel :
  forall attempt,
    attempt + fuel = max_retries ->
    let out := read_loop w filepath max_retries fuel attempt in
    (1 <= fuel -> out.2 <> Ok None) /\
    exists k, k <= fuel - 1 /\ sleeps out.1 = retry_delays attempt k.
Proof.
  induction fuel as [|fuel IH]; intros attempt Hsum; simpl.
  - split; [lia|]. exists 0. split; [lia|reflexivity].
  - destruct (open_read w attempt) as [c|e].
    + split; [discriminate|]. exists 0. split; [lia|reflexivity].
    + destruct (is_PermissionError e).
      * destruct (Nat.ltb attempt (max_retries - 1)) eqn:Hlt.
        -- apply Nat.ltb_lt in Hlt.
           specialize (IH (S attempt) ltac:(lia)).
           destruct (read_loop w filepath max_retries fuel (S attempt)) as [tr r].
           simpl in *. destruct IH as [Hn (k & Hk & Hs)]. split.
           ++ intros _. apply Hn. lia.
           ++ exists (S k). split; [lia|]. rewrite Hs. reflexivity.
        -- simpl. split; [discriminate|]. exists 0. split; [lia|reflexivity].
      * simpl. split; [discriminate|]. exists 0. split; [lia|reflexivity].
Qed.

(** X4. With at least one attempt allowed, [_read_file_with_retry] returns
    the content or raises: the [return None] after the loop is reached only
    for [max_retries = 0].  It sleeps at most [max_retries - 1] times, and
    with the default of 5 attempts at most 5 seconds in all. *)
Theorem read_retry_returns_or_raises :
  forall w filepath max_retries,
    let out := _read_file_with_retry w filepath max_retries in
    (1 <= max_retries -> out.2 <> Ok None) /\
    (max_retries = 0 -> out = ([], Ok None)) /\
    length (sleeps out.1) <= max_retries - 1 /\
    (Qsum (sleeps (_read_file_with_retry w filepath default_read_retries).1)
     <= 5)%Q.
Proof.
  intros w filepath n out. subst out. unfold _read_file_with_retry.
  pose proof (read_loop_shape w filepath n n 0 eq_refl) as [Hn (k & Hk & Hs)].
  split; [exact Hn|]. split; [intros ->; reflexivity|]. split.
  - rewrite Hs. unfold retry_delays. rewrite length_map, length_seq. exact Hk.
  - pose proof (read_loop_shape w filepath default_read_retries
                  default_read_retries 0 eq_refl) as [_ (k' & Hk' & ->)].
    unfold default_read_retries in Hk'.
    destruct k' as [|[|[|[|[|k']]]]]; try lia; vm_compute; discriminate.
Qed.

Lemma read_retry_returns_or_raises_witness :
  (_read_file_with_retry locked_world "/watch/report.txt" 5).2 <> Ok None.
Proof.
  refine (proj1 (read_retry_returns_or_raises locked_world "/watch/report.txt" 5) _).
  lia.
Defined.

(** ** The effects of one call, in order *)

Lemma outward_app tr1 tr2 : outward (tr1 ++ tr2) = outward tr1 ++ outward tr2.
Proof. apply List.filter_app. Qed.

Lemma inserts_outward tr : inserts (outward tr) = inserts tr.
Proof.
  induction tr as [|ev tr IH]; [reflexivity|].
  destruct ev; simpl; rewrite ?IH; reflexivity.
Qed.

Lemma renames_outward tr : renames (outward tr) = renames tr.
Proof.
  induction tr as [|ev tr IH]; [reflexivity|].
  destruct ev; simpl; rewrite ?IH; reflexivity.
Qed.

Lemma read_loop_outward w filepath max_retries fuel :
  forall attempt, outward (read_loop w filepath max_retries fuel attempt).1 = [].
Proof.
  induction fuel as [|fuel IH]; intros attempt; [reflexivity|]. simpl.
  destruct (open_read w attempt) as [c|e]; [reflexivity|].
  destruct (is_PermissionError e); [|reflexivity].
  destruct (Nat.ltb attempt (max_retries - 1)); [|reflexivity].
  specialize (IH (S attempt)).
  destruct (read_loop w filepath max_retries fuel (S attempt)). exact IH.
Qed.

Lemma wait_loop_outward w filepath fuel :
  forall last_size retry_count wait_time,
    outward (wait_loop w filepath fuel last_size retry_count wait_time).1 = [].
Proof.
  induction fuel as [|fuel IH]; intros last rc wt; [reflexivity|]. simpl.
  destruct (getsize w rc) as [c|e].
  - destruct ((c =? last)%Z && (c >? 0)%Z); [reflexivity|].
    specialize (IH c (S rc) (Qmin (wt * (3 # 2)) 2)).
    destruct (wait_loop w filepath fuel c (S rc) (Qmin (wt * (3 # 2)) 2)).
    exact IH.
  - specialize (IH last (S rc) wt).
    destruct (wait_loop w filepath fuel last (S rc) wt). exact IH.
Qed.

Lemma wait_outward w filepath max_retries :
  outward (_wait_for_file_ready w filepath max_retries).1 = [].
Proof.
  unfold _wait_for_file_ready. destruct (path_exists w); [|reflexivity]. simpl.
  pose proof (wait_loop_outward w filepath max_retries (-1)%Z 0 (1 # 10)) as H.
  destruct (wait_loop w filepath max_retries (-1)%Z 0 (1 # 10)) as [tr r].
  destruct r; simpl in *; [exact H|]. rewrite outward_app, H. reflexivity.
Qed.

Lemma init_service_outward self w :
  outward (_init_google_service self w).1.2 = [].
Proof.
  unfold _init_google_service.
  destruct (from_service_account_file w); [destruct (build w)|]; reflexivity.
Qed.

Lemma archive_outward (P : Platform) self w filepath :
  let tr := (_archive_file self w filepath).1 in
  let dir := archive_dir_of P self in
  outward tr = [] \/ outward tr = [Makedirs dir] \/
  outward tr = [Makedirs dir;
                Rename filepath (Posixpath.join dir (Posixpath.basename filepath))].
Proof.
  unfold _archive_file, _archive_file_try, archive_dir_of.
  destruct (makedirs w); simpl; [|by left].
  destruct (String.eqb _ _); simpl; [by right; left|].
  destruct (rename w); simpl; [by right; right | by right; left].
Qed.

Lemma append_outward self w doc content skill :
  let out := _append_to_doc self w doc content skill in
  match out.2 with
  | Ok _ => exists index text, outward out.1 = [InsertText doc index text]
  | Raise _ => outward out.1 = []
  end.
Proof.
  unfold _append_to_doc, _append_to_doc_try.
  destruct (docs_service self); simpl; [|reflexivity].
  destruct (documents_get w) as [d|e]; simpl; [|reflexivity].
  destruct (end_index d) as [index|e]; simpl; [|reflexivity].
  destruct (batchUpdate w) as [[]|e]; simpl; [|reflexivity]. eauto.
Qed.

Lemma process_file_try_effects (P : Platform) self w filepath filename id :
  let out := process_file_try self w filepath filename id in
  let dir := archive_dir_of P self in
  exists c a,
    outward out.1.2 = c ++ a /\
    (c = [] \/ c = [Chmod filepath 420]) /\
    (a = [] \/
     exists doc index text,
       a = [InsertText doc index text] \/
       a = [InsertText doc index text; Makedirs dir] \/
       a = [InsertText doc index text; Makedirs dir;
            Rename filepath (Posixpath.join dir (Posixpath.basename filepath))]).
Proof.
  unfold process_file_try.
  destruct (_match_file_to_skill (cfg self) filename) as [[skill|]|e];
    simpl; [|by exists [], []; auto|by exists [], []; auto].
  pose proof (read_loop_outward w filepath default_read_retries
                default_read_retries 0) as Hrd.
  fold (_read_file_with_retry w filepath default_read_retries) in Hrd.
  destruct (_read_file_with_retry w filepath default_read_retries)
    as [tr2 [content|e]]; simpl in Hrd;
    [|simpl; rewrite Hrd; by exists [], []; auto].
  destruct (falsy content).
  { simpl. rewrite outward_app, Hrd. by exists [], []; auto. }
  set (tr3 := match chmod w with
              | Ok _ => [Chmod filepath 420]
              | Raise e => [Log WARNING (MsgChmodFailed e)]
              end).
  assert (Htr3 : outward tr3 = [] \/ outward tr3 = [Chmod filepath 420])
    by (subst tr3; destruct (chmod w); auto).
  set (st := if docs_service self then (self, [], Ok ())
             else _init_google_service self w).
  assert (Hst : outward st.1.2 = [] /\ cfg st.1.1 = cfg self).
  { subst st. destruct (docs_service self); [done|].
    split; [apply init_service_outward|]. apply init_service_spec. }
  destruct st as [[self1 tr4] started]. simpl in Hst. destruct Hst as [Htr4 Hcfg].
  destruct started as [[]|e].
  2:{ simpl. rewrite !outward_app, Hrd, Htr4, app_nil_r. simpl.
      exists (outward tr3), []. rewrite app_nil_r. auto. }
  pose proof (append_outward self1 w (doc_id skill) (default "" content)
                (name skill)) as Hap.
  simpl. destruct (_append_to_doc self1 w (doc_id skill) (default "" content)
                     (name skill)) as [tr5 [[]|e]]; simpl in Hap.
  2:{ simpl. rewrite !outward_app, Hrd, Htr4, Hap, !app_nil_r. simpl.
      exists (outward tr3), []. rewrite app_nil_r. auto. }
  destruct Hap as (index & text & Hins).
  pose proof (archive_outward P (mark_processed self1 id) w filepath) as Har.
  pose proof (archive_spec P (mark_processed self1 id) w filepath) as [Hok _].
  destruct (_archive_file (mark_processed self1 id) w filepath) as [tr6 r6].
  simpl in Har, Hok. subst r6. simpl.
  assert (Hdir : archive_dir_of P (mark_processed self1 id) = archive_dir_of P self)
    by (unfold archive_dir_of; simpl; by rewrite Hcfg).
  rewrite Hdir in Har.
  rewrite !outward_app, Hrd, Htr4, Hins. simpl. rewrite app_nil_r.
  exists (outward tr3), (InsertText (doc_id skill) index text :: outward tr6).
  split; [reflexivity|]. split; [exact Htr3|]. right.
  exists (doc_id skill), index, text.
  destruct Har as [->|[->| ->]]; auto.
Qed.

(** X5. What one call of [process_file] does to files and documents, in
    order: at most one chmod 644 of the file, then at most one insert, then
    (only after an insert) the creation of the archive folder, then (only
    after that) the move of the file into it under its base name.  So a file
    is never moved away unless its content was inserted first. *)
Theorem process_file_effects_in_order :
  forall (P : Platform) self w filepath,
    let tr := (process_file self w filepath).1.2 in
    let dir := archive_dir_of P self in
    (exists c a,
        outward tr = c ++ a /\
        (c = [] \/ c = [Chmod filepath 420]) /\
        (a = [] \/
         exists doc index text,
           a = [InsertText doc index text] \/
           a = [InsertText doc index text; Makedirs dir] \/
           a = [InsertText doc index text; Makedirs dir;
                Rename filepath
                  (Posixpath.join dir (Posixpath.basename filepath))])) /\
    (renames tr <> [] -> inserts tr <> []).
Proof.
  intros P self w filepath tr dir.
  assert (Hshape : exists c a,
        outward tr = c ++ a /\
        (c = [] \/ c = [Chmod filepath 420]) /\
        (a = [] \/
         exists doc index text,
           a = [InsertText doc index text] \/
           a = [InsertText doc index text; Makedirs dir] \/
           a = [InsertText doc index text; Makedirs dir;
                Rename filepath
                  (Posixpath.join dir (Posixpath.basename filepath))])).
  { subst tr dir. unfold process_file.
    destruct (getmtime w) as [mtime|e]; [|by exists [], []; auto].
    destruct (bool_decide _); [by exists [], []; auto|].
    pose proof (process_file_try_effects P self w filepath
                  (Posixpath.basename filepath) (file_id filepath mtime)) as Ht.
    destruct (process_file_try self w filepath (Posixpath.basename filepath)
                (file_id filepath mtime)) as [[self' tr] r].
    simpl in Ht. destruct r as [[]|e]; simpl; [exact Ht|].
    rewrite outward_app. simpl. rewrite app_nil_r. exact Ht. }
  split; [exact Hshape|].
  destruct Hshape as (c & a & Ho & Hc & Ha).
  rewrite <- (renames_outward tr), <- (inserts_outward tr), Ho.
  rewrite renames_app, inserts_app.
  destruct Hc as [->| ->]; destruct Ha as [->|(doc & ix & t & [->|[->| ->]])];
    simpl; done.
Qed.

Lemma process_file_effects_in_order_witness :
  inserts (@process_file demo_platform (init weekly_cfg) calm_world
             "/watch/report.txt").1.2 <> [].
Proof.
  refine (proj2 (process_file_effects_in_order demo_platform (init weekly_cfg)
                   calm_world "/watch/report.txt") _).
  discriminate.
Defined.

(** ** The chmod step *)

Lemma read_loop_with_chmod r w filepath max_retries fuel :
  forall attempt,
    read_loop (with_chmod r w) filepath max_retries fuel attempt
    = read_loop w filepath max_retries fuel attempt.
Proof.
  induction fuel as [|fuel IH]; intros attempt; [reflexivity|].
  simpl. rewrite IH. reflexivity.
Qed.

(** X6. The answer of [os.chmod] changes nothing but its own trace entry:
    with any other answer of chmod, [process_file] ends with the same
    handler and the same result, and does and logs the same things apart
    from the chmod itself or the warning about it. *)
Theorem chmod_outcome_is_irrelevant :
  forall (P : Platform) self w filepath r,
    let o1 := process_file self w filepath in
    let o2 := process_file self (with_chmod r w) filepath in
    o1.1.1 = o2.1.1 /\ o1.2 = o2.2 /\
    without_chmod o1.1.2 = without_chmod o2.1.2.
Proof.
  intros P self w filepath r. unfold process_file.
  change (getmtime (with_chmod r w)) with (getmtime w).
  destruct (getmtime w) as [mtime|e]; [|done].
  destruct (bool_decide _); [done|].
  unfold process_file_try, _read_file_with_retry.
  rewrite read_loop_with_chmod.
  destruct (_match_file_to_skill (cfg self) (Posixpath.basename filepath))
    as [[skill|]|e]; [|done|done].
  destruct (read_loop w filepath default_read_retries default_read_retries 0)
    as [tr2 [content|e]]; [|done].
  destruct (falsy content); [done|].
  change (_init_google_service self (with_chmod r w))
    with (_init_google_service self w).
  destruct (if docs_service self then (self, [], Ok ())
            else _init_google_service self w) as [[self1 tr4] [[]|e]].
  2:{ cbn [fst snd]. unfold without_chmod.
      rewrite !List.filter_app. cbn [chmod with_chmod].
      destruct r, (chmod w); done. }
  change (_append_to_doc self1 (with_chmod r w)) with (_append_to_doc self1 w).
  destruct (_append_to_doc self1 w (doc_id skill) (default "" content)
              (name skill)) as [tr5 [[]|e]].
  2:{ cbn [fst snd]. unfold without_chmod.
      rewrite !List.filter_app. cbn [chmod with_chmod].
      destruct r, (chmod w); done. }
  change (_archive_file (mark_processed self1 (file_id filepath mtime))
            (with_chmod r w) filepath)
    with (_archive_file (mark_processed self1 (file_id filepath mtime)) w filepath).
  destruct (_archive_file (mark_processed self1 (file_id filepath mtime)) w filepath)
    as [tr6 [[]|e]];
    cbn [fst snd]; unfold without_chmod;
    rewrite !List.filter_app; cbn [chmod with_chmod];
    destruct r, (chmod w); done.
Qed.

(** ** Empty content *)

(** X7. A file that reads as the empty string is treated as a failed read:
    an ERROR line, no chmod, no insert, no move, the file is not marked and
    [process_file] returns normally. *)
Theorem empty_content_is_dropped :
  forall (P : Platform) self w filepath mtime skill tr2,
    getmtime w = Ok mtime ->
    file_id filepath mtime ∉ last_processed self ->
    _match_file_to_skill (cfg self) (Posixpath.basename filepath) = Ok (Some skill) ->
    _read_file_with_retry w filepath default_read_retries = (tr2, Ok (Some "")) ->
    process_file self w filepath =
    (self,
     [Log INFO (MsgMatched (name skill) (Posixpath.basename filepath))] ++ tr2
       ++ [Log ERROR (MsgReadFailed (Posixpath.basename filepath))],
     Ok ()).
Proof.
  intros P self w filepath mtime skill tr2 Hmt Hnew Hm Hr.
  unfold process_file. rewrite Hmt, bool_decide_eq_false_2 by exact Hnew.
  unfold process_file_try. rewrite Hm, Hr. reflexivity.
Qed.

Lemma empty_content_is_dropped_witness :
  @process_file demo_platform (init weekly_cfg) blank_world "/watch/report.txt" =
  (init weekly_cfg,
   [Log INFO (MsgMatched "weekly" "report.txt");
    Log ERROR (MsgReadFailed "report.txt")],
   Ok ()).
Proof.
  refine (empty_content_is_dropped demo_platform (init weekly_cfg) blank_world
            "/watch/report.txt" 1718000000%float
            {| name := "weekly"; doc_id := "D1"; skill_name := "Weekly" |} []
            _ _ _ _); try reflexivity.
  simpl. set_solver.
Defined.

(** ** The dispatcher *)

Lemma process_file_no_match (P : Platform) self w filepath :
  _match_file_to_skill (cfg self) (Posixpath.basename filepath) = Ok None ->
  (process_file self w filepath).1.1 = self /\
  outward (process_file self w filepath).1.2 = [].
Proof.
  intros Hm. unfold process_file. destruct (getmtime w); [|done].
  destruct (bool_decide _); [done|].
  unfold process_file_try. rewrite Hm. done.
Qed.

Lemma on_created_cases (P : Platform) self w ev :
  let wait := _wait_for_file_ready w (src_path ev) default_wait_retries in
  let pf := process_file self w (src_path ev) in
  on_created self w ev =
  if is_directory ev then (self, [], Ok ())
  else if wait.2 then
    (pf.1.1,
     [Log INFO (MsgCreated (Posixpath.basename (src_path ev)))] ++ wait.1 ++ pf.1.2,
     pf.2)
  else
    (self, [Log INFO (MsgCreated (Posixpath.basename (src_path ev)))] ++ wait.1,
     Ok ()).
Proof.
  unfold on_created. destruct (is_directory ev); [reflexivity|].
  destruct (_wait_for_file_ready w (src_path ev) default_wait_retries) as [tr1 []];
    [|reflexivity].
  destruct (process_file self w (src_path ev)) as [[s tr2] r]. reflexivity.
Qed.

Lemma on_modified_cases (P : Platform) self w ev :
  let wait := _wait_for_file_ready w (src_path ev) default_wait_retries in
  let pf := process_file self w (src_path ev) in
  on_modified self w ev =
  if is_directory ev then (self, [], Ok ())
  else if _matches_any_pattern (cfg self) (Posixpath.basename (src_path ev)) then
    if wait.2 then
      (pf.1.1,
       [Log INFO (MsgModified (Posixpath.basename (src_path ev)))] ++ wait.1
         ++ pf.1.2,
       pf.2)
    else
      (self, [Log INFO (MsgModified (Posixpath.basename (src_path ev)))] ++ wait.1,
       Ok ())
  else (self, [], Ok ()).
Proof.
  unfold on_modified. destruct (is_directory ev); [reflexivity|].
  destruct (_matches_any_pattern _ _); [|reflexivity].
  destruct (_wait_for_file_ready w (src_path ev) default_wait_retries) as [tr1 []];
    [|reflexivity].
  destruct (process_file self w (src_path ev)) as [[s tr2] r]. reflexivity.
Qed.

(** X8. The event handlers act on ready files only.  For a directory event,
    or when the readiness check answers no, [on_created] and [on_modified]
    return normally, leave the handler as it was and touch neither file nor
    document.  Whenever one of them does touch something, the event was a
    file event, the file existed, and two consecutive size readings within
    the 10 attempts were equal and positive. *)
Theorem handlers_act_on_ready_files_only :
  forall (P : Platform) self w ev,
    let oc := on_created self w ev in
    let om := on_modified self w ev in
    (is_directory ev = true \/
     (_wait_for_file_ready w (src_path ev) default_wait_retries).2 = false ->
     oc.1.1 = self /\ outward oc.1.2 = [] /\ oc.2 = Ok () /\
     om.1.1 = self /\ outward om.1.2 = [] /\ om.2 = Ok ()) /\
    (outward oc.1.2 <> [] \/ outward om.1.2 <> [] ->
     is_directory ev = false /\ path_exists w = true /\
     stable_pair (size_observations w default_wait_retries)).
Proof.
  intros P self w ev oc om.
  assert (Hquiet :
    is_directory ev = true \/
    (_wait_for_file_ready w (src_path ev) default_wait_retries).2 = false ->
    oc.1.1 = self /\ outward oc.1.2 = [] /\ oc.2 = Ok () /\
    om.1.1 = self /\ outward om.1.2 = [] /\ om.2 = Ok ()).
  { intros Hq. subst oc om. rewrite on_created_cases, on_modified_cases.
    pose proof (wait_outward w (src_path ev) default_wait_retries) as Hw.
    destruct (is_directory ev); [done|]. destruct Hq as [?|Hq]; [done|].
    rewrite Hq. cbn [fst snd]. rewrite outward_app, Hw.
    destruct (_matches_any_pattern _ _); cbn [fst snd];
      rewrite ?outward_app, ?Hw; done. }
  split; [exact Hquiet|]. intros Hact.
  destruct (is_directory ev) eqn:Hd.
  { destruct (Hquiet (or_introl eq_refl)) as (_ & H1 & _ & _ & H2 & _).
    destruct Hact; done. }
  destruct ((_wait_for_file_ready w (src_path ev) default_wait_retries).2) eqn:Hr.
  - apply wait_ready_iff in Hr as [He Hs]. done.
  - destruct (Hquiet (or_intror eq_refl)) as (_ & H1 & _ & _ & H2 & _).
    destruct Hact; done.
Qed.

Lemma handlers_act_on_ready_files_only_witness :
  is_directory {| is_directory := false; src_path := "/watch/report.txt" |} = false /\
  path_exists calm_world = true /\
  stable_pair (size_observations calm_world default_wait_retries).
Proof.
  refine (proj2 (handlers_act_on_ready_files_only demo_platform (init weekly_cfg)
                   calm_world
                   {| is_directory := false; src_path := "/watch/report.txt" |}) _).
  left. discriminate.
Defined.

(** X9. The prefilter of [on_modified] only saves work.  When no pattern
    matches the file name, [on_modified] does nothing at all, and
    [on_created], which does wait for the file, leaves the handler as it was
    and touches neither file nor document.  When a pattern matches,
    [on_modified] does what [on_created] does: same handler, same result,
    same trace but for its first log line. *)
Theorem prefilter_only_saves_work :
  forall (P : Platform) self w ev,
    let filename := Posixpath.basename (src_path ev) in
    let oc := on_created self w ev in
    let om := on_modified self w ev in
    (_matches_any_pattern (cfg self) filename = false ->
     om = (self, [], Ok ()) /\ oc.1.1 = self /\ outward oc.1.2 = []) /\
    (_matches_any_pattern (cfg self) filename = true ->
     is_directory ev = false ->
     om.1.1 = oc.1.1 /\ om.2 = oc.2 /\
     om.1.2 = Log INFO (MsgModified filename) :: tail oc.1.2).
Proof.
  intros P self w ev filename oc om. subst oc om filename.
  rewrite on_created_cases, on_modified_cases. split.
  - intros Hno. rewrite Hno.
    assert (Hm : _match_file_to_skill (cfg self)
                   (Posixpath.basename (src_path ev)) = Ok None).
    { unfold _matches_any_pattern in Hno. unfold _match_file_to_skill.
      destruct (_match_file_to_skill_items (items_of (cfg self))
                  (Posixpath.basename (src_path ev))) as [[r|]|e] eqn:Hi;
        [| reflexivity |];
        assert (_matches_any_pattern_items (items_of (cfg self))
                  (Posixpath.basename (src_path ev)) = true)
          by (apply prefilter_items; rewrite Hi; discriminate); congruence. }
    pose proof (process_file_no_match P self w (src_path ev) Hm) as [Hs Ho].
    pose proof (wait_outward w (src_path ev) default_wait_retries) as Hw.
    destruct (is_directory ev); [done|]. split; [reflexivity|].
    destruct ((_wait_for_file_ready w (src_path ev) default_wait_retries).2);
      cbn [fst snd]; rewrite ?outward_app, ?Hw, ?Ho; done.
  - intros Hyes Hd. rewrite Hyes, Hd.
    destruct ((_wait_for_file_ready w (src_path ev) default_wait_retries).2);
      done.
Qed.

Lemma prefilter_only_saves_work_witness :
  @on_modified demo_platform (init summary_cfg) calm_world
    {| is_directory := false; src_path := "/watch/report.txt" |}
  = (init summary_cfg, [], Ok ()).
Proof.
  refine (proj1 (proj1 (prefilter_only_saves_work demo_platform (init summary_cfg)
                          calm_world
                          {| is_directory := false; src_path := "/watch/report.txt" |})
                   _)).
  reflexivity.
Defined.

(** ** Invariants of the handler *)

Lemma service_starts_app tr1 tr2 :
  service_starts (tr1 ++ tr2) = service_starts tr1 + service_starts tr2.
Proof. unfold service_starts. rewrite List.filter_app, length_app. reflexivity. Qed.

Lemma read_loop_service_starts w filepath max_retries fuel :
  forall attempt,
    service_starts (read_loop w filepath max_retries fuel attempt).1 = 0.
Proof.
  induction fuel as [|fuel IH]; intros attempt; [reflexivity|]. simpl.
  destruct (open_read w attempt) as [c|e]; [reflexivity|].
  destruct (is_PermissionError e); [|reflexivity].
  destruct (Nat.ltb attempt (max_retries - 1)); [|reflexivity].
  specialize (IH (S attempt)).
  destruct (read_loop w filepath max_retries fuel (S attempt)). exact IH.
Qed.

Lemma wait_loop_quiet w filepath fuel :
  forall last_size retry_count wait_time,
    let tr := (wait_loop w filepath fuel last_size retry_count wait_time).1 in
    service_starts tr = 0 /\ inserts tr = [].
Proof.
  induction fuel as [|fuel IH]; intros last rc wt; [done|]. simpl.
  destruct (getsize w rc) as [c|e].
  - destruct ((c =? last)%Z && (c >? 0)%Z); [done|].
    specialize (IH c (S rc) (Qmin (wt * (3 # 2)) 2)).
    destruct (wait_loop w filepath fuel c (S rc) (Qmin (wt * (3 # 2)) 2)).
    exact IH.
  - specialize (IH last (S rc) wt).
    destruct (wait_loop w filepath fuel last (S rc) wt). exact IH.
Qed.

Lemma wait_quiet w filepath max_retries :
  service_starts (_wait_for_file_ready w filepath max_retries).1 = 0 /\
  inserts (_wait_for_file_ready w filepath max_retries).1 = [].
Proof.
  unfold _wait_for_file_ready. destruct (path_exists w); [|done]. simpl.
  pose proof (wait_loop_quiet w filepath max_retries (-1)%Z 0 (1 # 10)) as H.
  destruct (wait_loop w filepath max_retries (-1)%Z 0 (1 # 10)) as [tr r].
  destruct r; simpl in *; [exact H|].
  rewrite service_starts_app, inserts_app. destruct H as [-> ->]. done.
Qed.

Lemma service_starts_cons ev tr :
  service_starts (ev :: tr)
  = (if is_service_ready ev then 1 else 0) + service_starts tr.
Proof. unfold service_starts. simpl. destruct (is_service_ready ev); reflexivity. Qed.

Ltac trace_sums :=
  cbv zeta; cbn [fst snd];
  rewrite ?service_starts_app, ?inserts_app, ?service_starts_cons.

(** One call: the service is started when it was not running and the start
    succeeds, and never otherwise; nothing is inserted without it. *)
Lemma process_file_try_service (P : Platform) self w filepath filename id :
  let out := process_file_try self w filepath filename id in
  service_starts out.1.2 + started self = started out.1.1 /\
  (inserts out.1.2 <> [] -> docs_service out.1.1 = true) /\
  ((docs_service self = true -> service_account_creds self = true) ->
   docs_service out.1.1 = true -> service_account_creds out.1.1 = true).
Proof.
  unfold process_file_try.
  destruct (_match_file_to_skill (cfg self) filename) as [[skill|]|e];
    [|by auto|by auto].
  pose proof (read_loop_service_starts w filepath default_read_retries
                default_read_retries 0) as Hrs.
  pose proof (read_loop_no_inserts w filepath default_read_retries
                default_read_retries 0) as Hri.
  fold (_read_file_with_retry w filepath default_read_retries) in Hrs, Hri.
  destruct (_read_file_with_retry w filepath default_read_retries)
    as [tr2 [content|e]]; simpl in Hrs, Hri;
    [|trace_sums; rewrite Hrs, Hri; by auto].
  destruct (falsy content).
  { trace_sums. rewrite Hrs, Hri. by auto. }
  set (tr3 := match chmod w with
              | Ok _ => [Chmod filepath 420]
              | Raise e => [Log WARNING (MsgChmodFailed e)]
              end).
  assert (Htr3 : service_starts tr3 = 0 /\ inserts tr3 = [])
    by (subst tr3; destruct (chmod w); done).
  destruct Htr3 as [Hs3 Hi3].
  set (st := if docs_service self then (self, [], Ok ())
             else _init_google_service self w).
  assert (Hst :
    service_starts st.1.2 + started self = started st.1.1 /\
    inserts st.1.2 = [] /\
    (st.2 = Ok () -> docs_service st.1.1 = true) /\
    ((docs_service self = true -> service_account_creds self = true) ->
     docs_service st.1.1 = true -> service_account_creds st.1.1 = true)).
  { subst st. unfold started. destruct (docs_service self) eqn:Hds;
      [simpl; rewrite ?Hds; by auto|].
    unfold _init_google_service.
    destruct (from_service_account_file w); [destruct (build w)|]; simpl;
      rewrite ?Hds; repeat split; try done; auto. }
  destruct st as [[self1 tr4] r4]. simpl in Hst.
  destruct Hst as (Hs4 & Hi4 & Hon & Hcr).
  destruct r4 as [[]|e].
  2:{ trace_sums. rewrite Hrs, Hri, Hs3, Hi3, Hi4. simpl.
      rewrite ?Nat.add_0_r. repeat split; auto; done. }
  specialize (Hon eq_refl).
  assert (Hap : service_starts (_append_to_doc self1 w (doc_id skill)
                                  (default "" content) (name skill)).1 = 0).
  { unfold _append_to_doc, _append_to_doc_try. rewrite Hon. simpl.
    destruct (documents_get w) as [d|e]; [|done].
    destruct (end_index d); [|done]. destruct (batchUpdate w); done. }
  pose proof (append_spec self1 w (doc_id skill) (default "" content)
                (name skill)) as Hai.
  destruct (_append_to_doc self1 w (doc_id skill) (default "" content)
              (name skill)) as [tr5 [[]|e]]; simpl in Hap, Hai.
  2:{ trace_sums. rewrite Hrs, Hri, Hs3, Hi3, Hi4, Hap, Hai. simpl.
      rewrite ?Nat.add_0_r. repeat split; auto. }
  assert (Har : service_starts (_archive_file (mark_processed self1 id) w filepath).1
                = 0).
  { unfold _archive_file, _archive_file_try.
    destruct (makedirs w); [|done]. destruct (String.eqb _ _); [done|].
    destruct (rename w); done. }
  pose proof (archive_spec P (mark_processed self1 id) w filepath) as [Hok _].
  destruct (_archive_file (mark_processed self1 id) w filepath) as [tr6 r6].
  simpl in Har, Hok. subst r6. trace_sums.
  rewrite Hrs, Hs3, Har, Hap. simpl.
  rewrite ?Nat.add_0_r. repeat split; auto.
Qed.

Lemma step_facts_idle self tr r :
  service_starts tr = 0 -> inserts tr = [] -> step_facts self (self, tr, r).
Proof.
  intros Hs Hi. unfold step_facts. simpl. rewrite Hs, Hi. simpl.
  repeat split; auto; done.
Qed.

Lemma step_facts_prefix self out tr0 :
  service_starts tr0 = 0 -> inserts tr0 = [] ->
  step_facts self out -> step_facts self (out.1.1, tr0 ++ out.1.2, out.2).
Proof.
  intros Hs Hi (H1 & H2 & H3 & H4 & H5). unfold step_facts. simpl.
  rewrite service_starts_app, inserts_app, Hs, Hi. simpl. done.
Qed.

Lemma process_file_step (P : Platform) self w filepath :
  step_facts self (process_file self w filepath).
Proof.
  pose proof (process_file_spec P self w filepath) as Hs. cbv zeta in Hs.
  unfold process_file in *. destruct (getmtime w) as [mtime|e];
    [|by apply step_facts_idle].
  destruct (bool_decide (file_id filepath mtime ∈ last_processed self)) eqn:Hb;
    [by apply step_facts_idle|].
  apply bool_decide_eq_false in Hb.
  pose proof (process_file_try_service P self w filepath
                (Posixpath.basename filepath) (file_id filepath mtime)) as Hv.
  destruct (process_file_try self w filepath (Posixpath.basename filepath)
              (file_id filepath mtime)) as [[self' tr] r].
  simpl in Hv. destruct Hv as (Hv1 & Hv2 & Hv3).
  assert (Hmarks : cfg self' = cfg self /\
                   size (last_processed self')
                   = size (last_processed self) + length (inserts tr)).
  { destruct r as [[]|e]; simpl in Hs; destruct Hs as (_ & Hc & Hs);
      (split; [exact Hc|]); rewrite ?inserts_app in Hs; simpl in Hs;
      rewrite ?app_nil_r in Hs;
      destruct Hs as [[-> ->]|(? & ? & ? & ? & H)]; try (simpl; lia);
      destruct H as (_ & _ & _ & _ & _ & _ & -> & ->);
      rewrite size_union by set_solver; rewrite size_singleton; simpl; lia. }
  destruct Hmarks as [Hc Hsz].
  destruct r as [[]|e]; unfold step_facts; simpl;
    rewrite ?service_starts_app, ?inserts_app; simpl;
    rewrite ?Nat.add_0_r, ?app_nil_r; repeat split; auto.
Qed.

Lemma on_created_step (P : Platform) self w ev :
  step_facts self (on_created self w ev).
Proof.
  rewrite on_created_cases.
  pose proof (wait_quiet w (src_path ev) default_wait_retries) as [Hs Hi].
  destruct (is_directory ev); [by apply step_facts_idle|].
  destruct ((_wait_for_file_ready w (src_path ev) default_wait_retries).2).
  - rewrite app_assoc. apply step_facts_prefix;
      rewrite ?service_starts_app, ?inserts_app, ?Hs, ?Hi; try done.
    apply process_file_step.
  - apply step_facts_idle; rewrite ?service_starts_app, ?inserts_app, ?Hs, ?Hi;
      done.
Qed.

Lemma on_modified_step (P : Platform) self w ev :
  step_facts self (on_modified self w ev).
Proof.
  rewrite on_modified_cases.
  pose proof (wait_quiet w (src_path ev) default_wait_retries) as [Hs Hi].
  destruct (is_directory ev); [by apply step_facts_idle|].
  destruct (_matches_any_pattern _ _); [|by apply step_facts_idle].
  destruct ((_wait_for_file_ready w (src_path ev) default_wait_retries).2).
  - rewrite app_assoc. apply step_facts_prefix;
      rewrite ?service_starts_app, ?inserts_app, ?Hs, ?Hi; try done.
    apply process_file_step.
  - apply step_facts_idle; rewrite ?service_starts_app, ?inserts_app, ?Hs, ?Hi;
      done.
Qed.

Lemma reaches_invariant (P : Platform) c self tr :
  reaches P c self tr ->
  cfg self = c /\
  service_starts tr = started self /\
  (inserts tr <> [] -> docs_service self = true) /\
  (docs_service self = true -> service_account_creds self = true) /\
  size (last_processed self) = length (inserts tr).
Proof.
  assert (Hstep : forall self tr out,
    (cfg self = c /\
     service_starts tr = started self /\
     (inserts tr <> [] -> docs_service self = true) /\
     (docs_service self = true -> service_account_creds self = true) /\
     size (last_processed self) = length (inserts tr)) ->
    step_facts self out ->
    cfg out.1.1 = c /\
    service_starts (tr ++ out.1.2) = started out.1.1 /\
    (inserts (tr ++ out.1.2) <> [] -> docs_service out.1.1 = true) /\
    (docs_service out.1.1 = true -> service_account_creds out.1.1 = true) /\
    size (last_processed out.1.1) = length (inserts (tr ++ out.1.2))).
  { clear. intros self tr out (I1 & I2 & I3 & I4 & I5) (S1 & S2 & S3 & S4 & S5).
    rewrite service_starts_app, inserts_app, length_app.
    split; [congruence|]. split; [lia|]. split; [|split; [auto|lia]].
    intros Hne. destruct (inserts out.1.2) eqn:Ho; [|by apply S3].
    rewrite app_nil_r in Hne. specialize (I3 Hne).
    unfold started in *. rewrite I3 in S2.
    destruct (docs_service out.1.1); [done|lia]. }
  induction 1 as [|self tr w ev Hr IH|self tr w ev Hr IH].
  - simpl. repeat split; try done.
  - apply (Hstep self tr _ IH), on_created_step.
  - apply (Hstep self tr _ IH), on_modified_step.
Qed.

(** X10. Over the whole life of a handler, whatever events arrive and
    however the outside answers: the configuration stays the one given at
    construction; the document service is started with success at most once,
    and exactly when the handler holds a service; the service is held only
    together with its credentials; and nothing is ever inserted by a handler
    that holds no service. *)
Theorem service_started_at_most_once :
  forall (P : Platform) c self tr,
    reaches P c self tr ->
    cfg self = c /\
    service_starts tr <= 1 /\
    (service_starts tr = 1 <-> docs_service self = true) /\
    (docs_service self = true -> service_account_creds self = true) /\
    (inserts tr <> [] -> service_starts tr = 1).
Proof.
  intros P c self tr Hr.
  destruct (reaches_invariant P c self tr Hr) as (H1 & H2 & H3 & H4 & _).
  unfold started in H2. split; [exact H1|].
  destruct (docs_service self); rewrite H2; repeat split; auto; try lia; try done.
  intros Hne. specialize (H3 Hne). done.
Qed.

(** X11. Over the whole life of a handler, the number of processed markers
    equals the number of inserts made: every insert marks an identity that
    was not marked before, and no identity is marked without an insert. *)
Theorem markers_count_inserts :
  forall (P : Platform) c self tr,
    reaches P c self tr ->
    size (last_processed self) = length (inserts tr).
Proof.
  intros P c self tr Hr. apply (reaches_invariant P c self tr Hr).
Qed.

Lemma service_started_at_most_once_witness :
  service_starts
    ([] ++ (@on_created demo_platform (init weekly_cfg) calm_world
              {| is_directory := false; src_path := "/watch/report.txt" |}).1.2)
  <= 1.
Proof.
  refine (proj1 (proj2 (service_started_at_most_once demo_platform weekly_cfg _ _ _))).
  apply reaches_created, reaches_init.
Defined.

Lemma markers_count_inserts_witness :
  size (last_processed
          (@on_created demo_platform (init weekly_cfg) calm_world
             {| is_directory := false; src_path := "/watch/report.txt" |}).1.1)
  = length (inserts
              ([] ++ (@on_created demo_platform (init weekly_cfg) calm_world
                        {| is_directory := false;
                           src_path := "/watch/report.txt" |}).1.2)).
Proof.
  refine (markers_count_inserts demo_platform weekly_cfg _ _ _).
  apply reaches_created, reaches_init.
Defined.

(** ** Paths *)

Lemma split_slash_nonempty s : Posixpath.split_slash s <> [].
Proof.
  destruct s as [|c s]; simpl; [discriminate|].
  destruct (Ascii.eqb c "/"); [discriminate|].
  destruct (Posixpath.split_slash s); discriminate.
Qed.

(** [(x + '/' + b).split('/') = x.split('/') + b.split('/')] *)
Lemma split_slash_app x b :
  Posixpath.split_slash (x +:+ "/" +:+ b)
  = Posixpath.split_slash x ++ Posixpath.split_slash b.
Proof.
  induction x as [|c x IH]; [reflexivity|].
  rewrite append_cons. simpl. rewrite IH.
  destruct (Ascii.eqb c "/"); [reflexivity|].
  pose proof (split_slash_nonempty x).
  destruct (Posixpath.split_slash x); [done|reflexivity].
Qed.

Lemma last_app_nonempty {A} (l1 l2 : list A) d :
  l2 <> [] -> List.last (l1 ++ l2) d = List.last l2 d.
Proof.
  intros Hne. induction l1 as [|a l1 IH]; [reflexivity|].
  simpl. rewrite IH. destruct (l1 ++ l2) eqn:Hl; [|reflexivity].
  apply app_eq_nil in Hl as [_ ->]. done.
Qed.

Lemma basename_after_slash x b :
  Posixpath.basename (x +:+ "/" +:+ b) = Posixpath.basename b.
Proof.
  unfold Posixpath.basename. rewrite split_slash_app.
  apply last_app_nonempty, split_slash_nonempty.
Qed.

Lemma endswith_slash_split a :
  Posixpath.endswith_slash a = true -> exists a0, a = a0 +:+ "/".
Proof.
  induction a as [|c a IH]; [discriminate|]. simpl.
  destruct a as [|c' a'].
  - intros ->%Ascii.eqb_eq. by exists "".
  - intros [a0 ->]%IH. by exists (String c a0).
Qed.

Lemma append_assoc (a b c : string) : (a +:+ b) +:+ c = a +:+ b +:+ c.
Proof. induction a as [|x a IH]; [reflexivity|]. rewrite !append_cons, IH. done. Qed.

(** [basename(join(a, b)) = basename(b)] *)
Lemma basename_join a b :
  Posixpath.basename (Posixpath.join a b) = Posixpath.basename b.
Proof.
  unfold Posixpath.join. destruct (Posixpath.startswith_slash b); [reflexivity|].
  destruct (String.eqb_spec a "") as [->|Hne]; simpl; [reflexivity|].
  destruct (Posixpath.endswith_slash a) eqn:He.
  - apply endswith_slash_split in He as [a0 ->].
    rewrite append_assoc. apply basename_after_slash.
  - apply basename_after_slash.
Qed.

Lemma split_slash_no_slash s :
  no_slash s = true -> Posixpath.split_slash s = [s].
Proof.
  induction s as [|c s IH]; [reflexivity|]. simpl.
  intros [Hc Hs]%andb_true_iff. rewrite IH by exact Hs.
  destruct (Ascii.eqb c "/"); [discriminate|reflexivity].
Qed.

Lemma split_slash_components s :
  Forall (fun x => no_slash x = true) (Posixpath.split_slash s).
Proof.
  induction s as [|c s IH]; simpl; [by repeat constructor|].
  destruct (Ascii.eqb c "/") eqn:Hc; [by constructor|].
  destruct (Posixpath.split_slash s) as [|x xs]; [by repeat constructor; simpl; rewrite Hc|].
  inversion IH; subst. constructor; [simpl; by rewrite Hc|done].
Qed.

Lemma basename_no_slash p : no_slash (Posixpath.basename p) = true.
Proof.
  unfold Posixpath.basename.
  pose proof (split_slash_components p) as Hall.
  pose proof (split_slash_nonempty p) as Hne.
  induction (Posixpath.split_slash p) as [|x xs IH]; [done|].
  inversion Hall; subst. destruct xs as [|y ys]; [done|].
  apply IH; [done|discriminate].
Qed.

Lemma basename_of_name s : no_slash s = true -> Posixpath.basename s = s.
Proof. intros H. unfold Posixpath.basename. by rewrite split_slash_no_slash. Qed.

(** ** Archiving: where the file goes, and when *)

(** X12. A move, when [_archive_file] makes one, goes from the file's path
    to the archive folder joined with the file's base name, so the archived
    file keeps its base name.  The move is made exactly when the archive
    folder could be ensured, the two paths differ after normalisation and
    [os.rename] succeeds; in every other case the file stays where it is. *)
Theorem archive_move_keeps_base_name :
  forall (P : Platform) self w filepath,
    let tr := (_archive_file self w filepath).1 in
    let dst := Posixpath.join (archive_dir_of P self) (Posixpath.basename filepath) in
    (renames tr = [] \/ renames tr = [(filepath, dst)]) /\
    Posixpath.basename dst = Posixpath.basename filepath /\
    (renames tr <> [] <->
     (exists u, makedirs w = Ok u) /\
     Posixpath.normpath dst <> Posixpath.normpath filepath /\
     (exists u, rename w = Ok u)).
Proof.
  intros P self w filepath tr dst. subst tr dst.
  split; [|split].
  - unfold _archive_file, _archive_file_try, archive_dir_of.
    destruct (makedirs w); simpl; [|by left].
    destruct (String.eqb _ _); simpl; [by left|].
    destruct (rename w); simpl; [by right | by left].
  - rewrite basename_join. apply basename_of_name, basename_no_slash.
  - unfold _archive_file, _archive_file_try, archive_dir_of.
    destruct (makedirs w) as [u|e]; simpl.
    2:{ split; [done|]. intros [[u Hu] _]. discriminate. }
    destruct (String.eqb_spec
                (Posixpath.normpath
                   (Posixpath.join
                      (expanduser (default "~/Downloads" (archive_folder (cfg self))))
                      (Posixpath.basename filepath)))
                (Posixpath.normpath filepath)) as [Heq|Hne]; simpl.
    { split; [done|]. intros (_ & Hd & _). done. }
    destruct (rename w) as [u'|e]; simpl.
    + split; [|discriminate]. intros _. eauto.
    + split; [done|]. intros (_ & _ & [u' Hu]). discriminate.
Qed.

Lemma archive_move_keeps_base_name_witness :
  renames (@_archive_file demo_platform (init weekly_cfg) calm_world
             "/watch/report.txt").1 <> [].
Proof.
  refine (proj2 (proj2 (proj2 (archive_move_keeps_base_name demo_platform
                                 (init weekly_cfg) calm_world "/watch/report.txt")))
            _).
  split; [by exists ()|]. split; [discriminate | by exists ()].
Defined.

(** X13. When the archive folder is the folder the file lies in, the file
    stays in place: for a file [join(dir, name)] with [name] free of
    slashes and an archive folder that expands to [dir], no move is made,
    whatever [os.rename] would answer. *)
Theorem archive_into_own_folder_stays :
  forall (P : Platform) self w dir filename,
    archive_dir_of P self = dir ->
    no_slash filename = true ->
    let filepath := Posixpath.join dir filename in
    renames (_archive_file self w filepath).1 = [] /\
    ((exists u, makedirs w = Ok u) ->
     (_archive_file self w filepath).1
     = [Makedirs dir; Log INFO (MsgStays filename)]).
Proof.
  intros P self w dir filename Hdir Hname filepath. subst filepath.
  unfold _archive_file, _archive_file_try. unfold archive_dir_of in Hdir.
  rewrite Hdir, basename_join, (basename_of_name filename Hname).
  rewrite String.eqb_refl.
  destruct (makedirs w) as [u|e]; simpl.
  - split; [reflexivity|]. intros _. reflexivity.
  - split; [reflexivity|]. intros [u Hu]. discriminate.
Qed.

Lemma archive_into_own_folder_stays_witness :
  renames (@_archive_file demo_platform (init stay_cfg) no_move_world
             (Posixpath.join "/watch/" "report.txt")).1 = [].
Proof.
  refine (proj1 (archive_into_own_folder_stays demo_platform (init stay_cfg)
                   no_move_world "/watch/" "report.txt" _ _));
    reflexivity.
Defined.

(** ** File identities *)

Lemma colon_free_app_colon x y : colon_free (x +:+ String ":" y) = false.
Proof.
  induction x as [|c x IH]; [reflexivity|].
  rewrite append_cons. simpl. rewrite IH. apply andb_false_r.
Qed.

Lemma colon_split_unique a :
  forall b s1 s2,
    colon_free s1 = true -> colon_free s2 = true ->
    a +:+ ":" +:+ s1 = b +:+ ":" +:+ s2 ->
    a = b /\ s1 = s2.
Proof.
  induction a as [|c a IH]; intros b s1 s2 H1 H2 Heq; destruct b as [|c' b];
    rewrite ?append_nil_l, ?append_cons, ?append_nil_l in Heq.
  - injection Heq as ->. done.
  - injection Heq as _ ->. rewrite colon_free_app_colon in H1. discriminate.
  - injection Heq as _ <-. rewrite colon_free_app_colon in H2. discriminate.
  - injection Heq as -> Heq. destruct (IH b s1 s2 H1 H2 Heq) as [-> ->]. done.
Qed.

(** X14. The identity string separates its two parts: as long as floats
    print without a colon, two identities are equal only for the same path
    and the same printed modification time, also for paths that contain
    colons.  So no file is skipped on account of another file's marker. *)
Theorem file_id_injective :
  forall (P : Platform) p1 m1 p2 m2,
    colon_free (float_str m1) = true ->
    colon_free (float_str m2) = true ->
    file_id p1 m1 = file_id p2 m2 ->
    p1 = p2 /\ float_str m1 = float_str m2.
Proof.
  intros P p1 m1 p2 m2 H1 H2 Heq. unfold file_id in Heq.
  apply (colon_split_unique p1 p2 _ _ H1 H2 Heq).
Qed.

Lemma file_id_injective_witness :
  "/watch/a:b.txt" = "/watch/a:b.txt" /\
  @float_str demo_platform 1718000000%float
  = @float_str demo_platform 1718000000%float.
Proof.
  refine (file_id_injective demo_platform "/watch/a:b.txt" 1718000000%float
            "/watch/a:b.txt" 1718000000%float _ _ _); reflexivity.
Defined.

(** ** Entries without a pattern *)

Lemma pattern_matches_usable filename e :
  pattern_matches filename e = true -> usable e = true.
Proof.
  unfold pattern_matches, usable. destruct (e_pattern e); [|discriminate].
  by intros [? _]%andb_true_iff.
Qed.

Lemma prune_items items filename :
  _match_file_to_skill_items (List.filter (fun x => usable x.2) items) filename
  = _match_file_to_skill_items items filename /\
  _matches_any_pattern_items (List.filter (fun x => usable x.2) items) filename
  = _matches_any_pattern_items items filename.
Proof.
  induction items as [|[key e] items [IH1 IH2]]; [done|]. simpl.
  destruct (usable e) eqn:Hu; simpl.
  - rewrite IH1, IH2. done.
  - destruct (pattern_matches filename e) eqn:Hm; [|done].
    apply pattern_matches_usable in Hm. congruence.
Qed.

(** X15. Entries whose [pattern] is absent or empty take no part in
    matching: removing them from the configuration changes no answer of the
    matcher nor of the prefilter, whatever the file name.  In particular
    such an entry never needs a [doc_id]. *)
Theorem entries_without_pattern_are_ignored :
  forall c filename,
    _match_file_to_skill (prune c) filename = _match_file_to_skill c filename /\
    _matches_any_pattern (prune c) filename = _matches_any_pattern c filename.
Proof.
  intros c filename. unfold _match_file_to_skill, _matches_any_pattern.
  change (items_of (prune c))
    with (List.filter (fun x => usable x.2) (items_of c)).
  apply prune_items.
Qed.

(** ** The insertion index *)

Lemma last_map_Some_app (l : list Z) e :
  List.last (map Some (l ++ [e])) None = Some e.
Proof. rewrite map_app. simpl. apply last_last. Qed.

(** X16. The insertion index is read off the last block of the body alone:
    it is that block's [endIndex] minus one, whatever blocks come before.
    A document whose body has no block makes the subscript fail: the append
    raises [IndexError] after logging it and nothing is inserted, even
    though the update itself would have succeeded. *)
Theorem index_comes_from_last_block :
  forall self w doc content skill,
    docs_service self = true ->
    (forall blocks e,
        documents_get w = Ok {| body_content := blocks ++ [e] |} ->
        batchUpdate w = Ok () ->
        _append_to_doc self w doc content skill =
        ([InsertText doc (e - 1)%Z
            (full_content skill (strftime (now w)) content);
          Log INFO (MsgAppended doc)], Ok ())) /\
    (documents_get w = Ok {| body_content := [] |} ->
     _append_to_doc self w doc content skill =
     ([Log ERROR (MsgAppendError (IndexError "list index out of range"))],
      Raise (IndexError "list index out of range"))).
Proof.
  intros self w doc content skill Hon. split.
  - intros blocks e Hd Hb. unfold _append_to_doc, _append_to_doc_try.
    rewrite Hon, Hd. unfold end_index. cbn [body_content negb].
    rewrite last_map_Some_app, Hb. reflexivity.
  - intros Hd. unfold _append_to_doc, _append_to_doc_try.
    rewrite Hon, Hd. reflexivity.
Qed.

Lemma index_comes_from_last_block_witness :
  _append_to_doc (serving weekly_cfg) hollow_world "D1" "Hello" "weekly" =
  ([Log ERROR (MsgAppendError (IndexError "list index out of range"))],
   Raise (IndexError "list index out of range")).
Proof.
  refine (proj2 (index_comes_from_last_block (serving weekly_cfg) hollow_world
                   "D1" "Hello" "weekly" _) _); reflexivity.
Defined.

(** ** The envelope around the content *)

Lemma length_append (a b : string) :
  String.length (a +:+ b) = String.length a + String.length b.
Proof. induction a as [|c a IH]; [reflexivity|]. rewrite append_cons. simpl. lia. Qed.

Lemma append_cancel_l (a x y : string) : a +:+ x = a +:+ y -> x = y.
Proof.
  induction a as [|c a IH]; [done|]. rewrite !append_cons. intros [= H]. auto.
Qed.

Lemma append_cancel_r (s : string) :
  forall x y, x +:+ s = y +:+ s -> x = y.
Proof.
  intros x. induction x as [|c x IH]; intros y Heq.
  - destruct y as [|c' y]; [reflexivity|]. apply (f_equal String.length) in Heq.
    rewrite append_nil_l, length_append in Heq. simpl in Heq. lia.
  - destruct y as [|c' y].
    + apply (f_equal String.length) in Heq.
      rewrite append_nil_l, length_append in Heq. simpl in Heq. lia.
    + rewrite !append_cons in Heq. injection Heq as -> Heq. f_equal. auto.
Qed.

(** X17. The envelope carries the content unchanged and whole: the text
    inserted is longer than the content by 289 characters plus the length of
    the name in the header, and two contents give the same text under the
    same name and time only if they are equal. *)
Theorem envelope_keeps_content :
  forall skill t content,
    String.length (full_content skill (strftime t) content)
    = 289 + String.length skill + String.length content /\
    (forall content',
        full_content skill (strftime t) content
        = full_content skill (strftime t) content' ->
        content = content').
Proof.
  intros skill t content. split.
  - unfold full_content, header. rewrite !length_append.
    change (String.length separator) with 83.
    change (String.length footer) with 83.
    change (String.length (strftime t)) with 19.
    change (String.length nl) with 1.
    change (String.length "Added by ") with 9.
    change (String.length " daemon at ") with 11. lia.
  - intros content' Heq. unfold full_content in Heq.
    do 3 apply append_cancel_l in Heq. by apply append_cancel_r in Heq.
Qed.

Lemma envelope_keeps_content_witness : "Hello" = "Hello".
Proof.
  refine (proj2 (envelope_keeps_content "weekly" noon "Hello") "Hello" _).
  reflexivity.
Defined.

(** ** Start-up *)





Example main_good_start :
  @main demo_platform good_start
  = ([MainLog INFO MsgRule; MainLog INFO MsgStarting; MainLog INFO MsgRule;
      MainLog INFO MsgConfigLoaded;
      MainMakedirs "/watch"; MainLog INFO (MsgWatching "/watch");
      ObserverStart "/watch"; MainLog INFO MsgRunning;
      MainSleep 1; MainSleep 1; MainSleep 1;
      MainLog INFO MsgStopping; ObserverStop; ObserverJoin;
      MainLog INFO MsgStopped],
     Returned).
Proof. reflexivity. Qed.

Example main_no_config :
  @main demo_platform no_config_start
  = ([MainLog INFO MsgRule; MainLog INFO MsgStarting; MainLog INFO MsgRule;
      MainLog ERROR (MsgConfigNotFound "/Users/me/.claude-skills-config.json");
      MainLog ERROR (MsgFatal (FileNotFoundError
                                 "Please create /Users/me/.claude-skills-config.json"))],
     Raised (FileNotFoundError "Please create /Users/me/.claude-skills-config.json")).
Proof. reflexivity. Qed.



(** ** Matching over a longer configuration *)

(** X19. The matcher reads the configuration front to back and stops at the
    first entry whose pattern matches: over two lists of skills one after
    the other, the answer is that of the first list unless it is [None], and
    only then that of the second.  So entries added at the end never change
    the answer for a file matched earlier, be it a skill or the [KeyError]
    of an entry without [doc_id].  The prefilter is the disjunction of the
    prefilters of the two lists. *)
Theorem matcher_over_concatenation :
  forall l1 l2 filename,
    _match_file_to_skill_items (l1 ++ l2) filename
    = match _match_file_to_skill_items l1 filename with
      | Ok None => _match_file_to_skill_items l2 filename
      | answer => answer
      end /\
    _matches_any_pattern_items (l1 ++ l2) filename
    = _matches_any_pattern_items l1 filename
      || _matches_any_pattern_items l2 filename.
Proof.
  intros l1 l2 filename. induction l1 as [|[key e] l1 [IH1 IH2]]; [done|].
  simpl. destruct (pattern_matches filename e); [|done].
  destruct (e_doc_id e); done.
Qed.

(** ** When an exception leaves the event handlers *)

(** X20. An exception leaves [on_created] or [on_modified] in one case
    only: the event is a file event, the file was found ready (and, for
    [on_modified], its name matches a pattern), and then its modification
    time could not be read.  The exception is that of [os.path.getmtime],
    and the handler object is left as it was. *)
Theorem handlers_raise_only_on_getmtime :
  forall (P : Platform) self w ev e,
    let ready := (_wait_for_file_ready w (src_path ev) default_wait_retries).2 in
    ((on_created self w ev).2 = Raise e <->
     is_directory ev = false /\ ready = true /\ getmtime w = Raise e) /\
    ((on_modified self w ev).2 = Raise e <->
     is_directory ev = false /\
     _matches_any_pattern (cfg self) (Posixpath.basename (src_path ev)) = true /\
     ready = true /\ getmtime w = Raise e) /\
    ((on_created self w ev).2 = Raise e -> (on_created self w ev).1.1 = self) /\
    ((on_modified self w ev).2 = Raise e -> (on_modified self w ev).1.1 = self).
Proof.
  intros P self w ev e ready. subst ready.
  rewrite on_created_cases, on_modified_cases.
  pose proof (process_file_raises_iff P self w (src_path ev) e) as Hr.
  assert (Hs : (process_file self w (src_path ev)).2 = Raise e ->
               (process_file self w (src_path ev)).1.1 = self).
  { intros H. apply Hr in H. unfold process_file. rewrite H. reflexivity. }
  destruct (is_directory ev).
  { repeat split; try discriminate; intros (? & _); discriminate. }
  destruct (_matches_any_pattern _ _);
    destruct ((_wait_for_file_ready w (src_path ev) default_wait_retries).2);
    cbn [fst snd]; rewrite ?Hr;
    repeat split; try done; try tauto;
    try (intros (_ & ? & _); discriminate);
    try (intros (_ & _ & ? & _); discriminate);
    try (intros H; apply Hs, Hr; exact H).
Qed.

Lemma handlers_raise_only_on_getmtime_witness :
  (@on_created demo_platform (init weekly_cfg) vanished_world
     {| is_directory := false; src_path := "/watch/report.txt" |}).2
  = Raise (OSError "[Errno 2] No such file or directory").
Proof.
  refine (proj2 (proj1 (handlers_raise_only_on_getmtime demo_platform
                          (init weekly_cfg) vanished_world
                          {| is_directory := false; src_path := "/watch/report.txt" |}
                          (OSError "[Errno 2] No such file or directory"))) _).
  repeat split.
Defined.
